(** * The username-discount claim endpoint

    A shallow embedding of the Next.js API route that issues the signed
    discount message for a verified address ([handler] and [signMessage]),
    together with the properties of its claim cache, of its error paths and
    of the message it signs.

    The route talks to three outside services (the attestation index, the
    address-linking API, the key/value store) and uses viem and the
    JavaScript runtime for hashing, signing and JSON decoding.  The services
    are oracles collected in [Services]; the library functions whose result
    depends on a hash or a curve are fields of [Runtime]; what viem does on
    text and bytes alone ([isHex], [isAddress], [encodePacked]) is written
    out.  Every await of the route is one [Event] of the trace, recorded
    with its result, and every [res.status(..).json(..)] is one [Response]
    appended to [sent]. *)

From Stdlib Require Import ZArith NArith Lia List String Ascii Bool.
From Stdlib.Strings Require Import Byte.
From Stdlib Require Import Sorted.
From stdpp Require Import base option list gmap strings fin_maps.

Open Scope string_scope.
Open Scope Z_scope.

(** ** Exceptions *)

Inductive Error : Type :=
  JsError (name : string) (message : string).

Inductive Exc (A : Type) : Type :=
  | Ok (a : A)
  | Thrown (e : Error).
Arguments Ok {A} a.
Arguments Thrown {A} e.

(** ** Text helpers: ASCII case and hexadecimal digits *)

Module Hex.

Definition is_upper (c : ascii) : bool :=
  let n := nat_of_ascii c in (Nat.leb 65 n && Nat.leb n 90)%bool.

Definition lower_ascii (c : ascii) : ascii :=
  if is_upper c then ascii_of_nat (nat_of_ascii c + 32) else c.

(** [String.prototype.toLowerCase] on the ASCII range. *)
Fixpoint toLowerCase (s : string) : string :=
  match s with
  | EmptyString => EmptyString
  | String c r => String (lower_ascii c) (toLowerCase r)
  end.

(** The value of a digit of [0-9a-fA-F]. *)
Definition digit (c : ascii) : option N :=
  let n := N_of_ascii c in
  if (48 <=? n)%N && (n <=? 57)%N then Some (n - 48)%N
  else if (97 <=? n)%N && (n <=? 102)%N then Some (n - 87)%N
  else if (65 <=? n)%N && (n <=? 70)%N then Some (n - 55)%N
  else None.

Definition is_digit (c : ascii) : bool :=
  match digit c with Some _ => true | None => false end.

Fixpoint all_digits (s : string) : bool :=
  match s with
  | EmptyString => true
  | String c r => is_digit c && all_digits r
  end.

Definition byte_of_N (n : N) : byte :=
  match Byte.of_N (n mod 256) with
  | Some b => b
  | None => x00
  end.

(** Two digits per byte, high nibble first. *)
Fixpoint pairs (s : string) : option (list byte) :=
  match s with
  | EmptyString => Some []
  | String a (String b r) =>
      match digit a, digit b, pairs r with
      | Some hi, Some lo, Some rest => Some (byte_of_N (16 * hi + lo) :: rest)
      | _, _, _ => None
      end
  | String _ EmptyString => None
  end.

(** [n] bytes, most significant first. *)
Fixpoint be_bytes (n : nat) (v : N) : list byte :=
  match n with
  | O => []
  | S n' => be_bytes n' (v / 256) ++ [byte_of_N (v mod 256)]
  end.

End Hex.

(** ** viem: the functions of the library that work on text and bytes *)

(** What follows the leading [0x], when the text has one. *)
Definition strip0x (s : string) : option string :=
  match s with
  | String "0" (String "x" r) => Some r
  | _ => None
  end.

(** [isHex(value)] in its default strict mode: [/^0x[0-9a-fA-F]*$/], and
    [false] on a value that is missing or empty. *)
Definition isHex (value : option string) : bool :=
  match value with
  | Some s =>
      match strip0x s with
      | Some r => Hex.all_digits r
      | None => false
      end
  | None => false
  end.

(** [/^0x[a-fA-F0-9]{40}$/] *)
Definition addressRegex (s : string) : bool :=
  match strip0x s with
  | Some r => Hex.all_digits r && Nat.eqb (String.length r) 40
  | None => false
  end.

(** The 20 bytes an address string stands for. *)
Definition addressBytes (s : string) : option (list byte) :=
  match strip0x s with
  | Some r => Hex.pairs r
  | None => None
  end.

Definition maxUint256 : Z := 2 ^ 256 - 1.

(** ** Data of the route *)

Record PreviousClaim : Type := {
  claim_address : string;
  claim_signedMessage : string
}.

(** What [JSON.parse] can return, and [undefined] for a missing index. *)
#[warnings="-register-all"]
Inductive JsValue : Type :=
  | JUndefined
  | JNull
  | JBool (b : bool)
  | JNum (n : Z)
  | JStr (s : string)
  | JArr (items : list JsValue)
  | JObj (fields : list (string * JsValue)).

(** Of an attestation only [decodedDataJson] is read.  [getAttestations]
    returns an array of them, as its type says. *)
Record Attestation : Type := {
  decodedDataJson : string
}.

Record CoinbaseProofResponse : Type := {
  signedMessage : option string;
  attestations : list JsValue;
  linkedAddresses : option (list string)
}.

Inductive Body : Type :=
  | ErrorBody (error : string)
  | ProofBody (proof : CoinbaseProofResponse).

Record Response : Type := {
  status : Z;
  body : Body
}.

Inductive Chain : Type := base | baseSepolia.

(** [req.query.address] is [string | string[] | undefined]. *)
Inductive QueryValue : Type :=
  | QUndefined
  | QString (s : string)
  | QArray (l : list string).

Record NextApiRequest : Type := {
  method : option string;
  query_address : QueryValue
}.

(** The constants module and the environment of the process. *)
Record Config : Type := {
  isDevelopment : bool;
  trustedSignerAddress : string;
  trustedSignerPKey : option string;
  verifiedAccountSchemaId : option string;
  verifiedCb1AccountSchemaId : option string;
  USERNAMES_SIGNATURE_EXPIRATION_SECONDS : option Z
}.

(** Library functions that need a hash or a curve, and [JSON.parse]. *)
Record Runtime : Type := {
  checksumAddress : string -> string;
  keccak256 : list byte -> string;
  Account : Type;
  privateKeyToAccount : string -> Exc Account;
  account_signMessage : Account -> string -> Exc string;
  encodeAbiParameters : string -> Z -> string -> Exc string;
  JSON_parse : string -> Exc JsValue
}.

(** The outside services.  The store keeps its content in [World]; the
    oracle only says when a call to it fails. *)
Record Services : Type := {
  getAttestations : string -> Chain -> list (option string) -> Exc (list Attestation);
  getLinkedAddresses : string -> Exc (list string * string);
  kv_get_fault : string -> option Error;
  kv_set_fault : string -> PreviousClaim -> Z -> option Error
}.

Inductive Event : Type :=
  | EvGetAttestations (addr : string) (c : Chain) (schemas : list (option string))
      (result : Exc (list Attestation))
  | EvGetLinkedAddresses (addr : string) (result : Exc (list string * string))
  | EvKvGet (key : string) (result : Exc (option PreviousClaim))
  | EvKvSet (key : string) (value : PreviousClaim) (ex : Z) (result : Exc unit)
  | EvSignMessage (msgHash : string) (result : Exc string).

(** An entry of the store: the record and the seconds it has left. *)
Record World : Type := {
  kv_store : gmap string (PreviousClaim * Z);
  trace : list Event;
  sent : list Response;
  console : list Error
}.

Definition init (store : gmap string (PreviousClaim * Z)) : World :=
  {| kv_store := store; trace := []; sent := []; console := [] |}.

(** The store after [dt] seconds: what has no time left is gone. *)
Definition elapse (dt : Z) (store : gmap string (PreviousClaim * Z))
  : gmap string (PreviousClaim * Z) :=
  omap (fun e : PreviousClaim * Z =>
          if dt <? snd e then Some (fst e, snd e - dt) else None) store.

(** ** The monad of the route: state and exceptions *)

Definition M (A : Type) : Type := World -> Exc A * World.

Definition ret {A} (a : A) : M A := fun w => (Ok a, w).

Definition throw {A} (e : Error) : M A := fun w => (Thrown e, w).

Definition bind {A B} (m : M A) (k : A -> M B) : M B :=
  fun w =>
    match m w with
    | (Ok a, w') => k a w'
    | (Thrown e, w') => (Thrown e, w')
    end.

Definition try_catch {A} (block : M A) (handle : Error -> M A) : M A :=
  fun w =>
    match block w with
    | (Ok a, w') => (Ok a, w')
    | (Thrown e, w') => handle e w'
    end.

Definition lift {A} (r : Exc A) : M A := fun w => (r, w).

Notation "'let!' x ':=' c 'in' k" := (bind c (fun x => k))
  (at level 10, x pattern, c at level 100, k at level 200).
Notation "c ';;' k" := (bind c (fun _ => k))
  (at level 100, k at level 200, right associativity).

Definition record (ev : Event) : M unit :=
  fun w => (Ok tt, {| kv_store := kv_store w; trace := trace w ++ [ev];
                      sent := sent w; console := console w |}).

(** [res.status(code).json(payload)] *)
Definition respond (code : Z) (payload : Body) : M unit :=
  fun w => (Ok tt, {| kv_store := kv_store w; trace := trace w;
                      sent := sent w ++ [{| status := code; body := payload |}];
                      console := console w |}).

Definition console_error (e : Error) : M unit :=
  fun w => (Ok tt, {| kv_store := kv_store w; trace := trace w;
                      sent := sent w; console := console w ++ [e] |}).

Fixpoint mapM {A B} (f : A -> M B) (l : list A) : M (list B) :=
  match l with
  | [] => ret []
  | x :: r => let! y := f x in let! ys := mapM f r in ret (y :: ys)
  end.

(** ** viem, continued: addresses and the packed encoding *)

(** [isAddress(address)] with its default [strict: true]: the shape, then
    either all lower case or equal to its own checksummed spelling. *)
Definition isAddress (R : Runtime) (address : string) : bool :=
  if negb (addressRegex address) then false
  else if String.eqb (Hex.toLowerCase address) address then true
  else String.eqb (checksumAddress R address) address.

Definition InvalidAddressError : Error :=
  JsError "InvalidAddressError" "Address is invalid.".
Definition IntegerOutOfRangeError : Error :=
  JsError "IntegerOutOfRangeError" "Number is not in safe 256-bit unsigned integer range.".
Definition TypeError (m : string) : Error := JsError "TypeError" m.

(** The two bytes of ['0x1900']. *)
Definition domainPrefix : list byte := [x19; x00].

(** One [address] element of [encodePacked]: checked, then its 20 bytes. *)
Definition packAddress (R : Runtime) (a : string) : Exc (list byte) :=
  if isAddress R a then
    match addressBytes a with
    | Some bs => Ok bs
    | None => Thrown InvalidAddressError
    end
  else Thrown InvalidAddressError.

(** One [uint256] element: 32 bytes, most significant first. *)
Definition packUint256 (v : Z) : Exc (list byte) :=
  if (v <? 0) || (maxUint256 <? v) then Thrown IntegerOutOfRangeError
  else Ok (Hex.be_bytes 32 (Z.to_N v)).

(** [encodePacked(['bytes2','address','address','uint256'],
                  ['0x1900', signer, claimer, expiry])];
    the elements are encoded from left to right. *)
Definition encodePacked (R : Runtime) (signer claimer : string) (expiry : Z)
  : Exc (list byte) :=
  match packAddress R signer with
  | Thrown e => Thrown e
  | Ok s =>
      match packAddress R claimer with
      | Thrown e => Thrown e
      | Ok c =>
          match packUint256 expiry with
          | Thrown e => Thrown e
          | Ok x => Ok (domainPrefix ++ s ++ c ++ x)%list
          end
      end
  end.

(** ** The module of the route *)

(** [process.env.USERNAMES_SIGNATURE_EXPIRATION_SECONDS ?? 300], at the type
    the module gives it: the number the variable stands for, 300 when the
    variable is not set. *)
Definition expiry (cfg : Config) : Z :=
  match USERNAMES_SIGNATURE_EXPIRATION_SECONDS cfg with
  | Some n => n
  | None => 300
  end.

Definition previousClaimsKVPrefix : string := "username:claims:".

Definition chain (cfg : Config) : Chain :=
  if isDevelopment cfg then baseSepolia else base.

(** The hash that is signed: [keccak256(encodePacked(..))]. *)
Definition msgHash (R : Runtime) (cfg : Config) (claimerAddress : string) : Exc string :=
  match encodePacked R (trustedSignerAddress cfg) claimerAddress (expiry cfg) with
  | Ok message => Ok (keccak256 R message)
  | Thrown e => Thrown e
  end.

(** The awaits of the route, each recorded with its result. *)
Definition await_getAttestations (S : Services) (addr : string) (c : Chain)
    (schemas : list (option string)) : M (list Attestation) :=
  let r := getAttestations S addr c schemas in
  record (EvGetAttestations addr c schemas r) ;; lift r.

Definition await_getLinkedAddresses (S : Services) (addr : string)
  : M (list string * string) :=
  let r := getLinkedAddresses S addr in
  record (EvGetLinkedAddresses addr r) ;; lift r.

(** [kv.get(key)]: the record under [key], or [null]. *)
Definition kv_get (S : Services) (key : string) : M (option PreviousClaim) :=
  fun w =>
    let r := match kv_get_fault S key with
             | Some e => Thrown e
             | None => Ok (fst <$> kv_store w !! key)
             end in
    (record (EvKvGet key r) ;; lift r) w.

(** [kv.set(key, value, { ex })]: the record replaces what is under [key]
    and lives for [ex] seconds. *)
Definition kv_set (S : Services) (key : string) (value : PreviousClaim) (ex : Z)
  : M unit :=
  fun w =>
    match kv_set_fault S key value ex with
    | Some e => (record (EvKvSet key value ex (Thrown e)) ;; throw e) w
    | None =>
        record (EvKvSet key value ex (Ok tt))
          {| kv_store := <[key := (value, ex)]> (kv_store w); trace := trace w;
             sent := sent w; console := console w |}
    end.

Definition await_signMessage (R : Runtime) (account : Account R) (hash : string)
  : M string :=
  let r := account_signMessage R account hash in
  record (EvSignMessage hash r) ;; lift r.

Definition signMessage (R : Runtime) (cfg : Config) (claimerAddress : string)
  : M string :=
  let! account :=
    match trustedSignerPKey cfg with
    | Some pkey => lift (privateKeyToAccount R pkey)
    | None => throw (TypeError "private key must be a hex string")
    end in
  let! hash := lift (msgHash R cfg claimerAddress) in
  let! signature := await_signMessage R account hash in
  lift (encodeAbiParameters R claimerAddress (expiry cfg) signature).

(** [JSON.parse(text)[0]] *)
Definition index0 (v : JsValue) : Exc JsValue :=
  match v with
  | JUndefined => Thrown (TypeError "Cannot read properties of undefined")
  | JNull => Thrown (TypeError "Cannot read properties of null")
  | JBool _ | JNum _ => Ok JUndefined
  | JStr s =>
      match s with
      | EmptyString => Ok JUndefined
      | String c _ => Ok (JStr (String c EmptyString))
      end
  | JArr items =>
      match items with
      | [] => Ok JUndefined
      | x :: _ => Ok x
      end
  | JObj fields =>
      match List.find (fun kv => String.eqb (fst kv) "0") fields with
      | Some kv => Ok (snd kv)
      | None => Ok JUndefined
      end
  end.

Definition decodeAttestation (R : Runtime) (attestation : Attestation) : Exc JsValue :=
  match JSON_parse R (decodedDataJson attestation) with
  | Ok v => index0 v
  | Thrown e => Thrown e
  end.

(** [!value] on a value that is a string or missing. *)
Definition falsy (value : option string) : bool :=
  match value with
  | None => true
  | Some s => String.eqb s ""
  end.

(** [!address || Array.isArray(address) || !isAddress(address)], negated:
    the address when the guard lets it through. *)
Definition validAddress (R : Runtime) (q : QueryValue) : option string :=
  match q with
  | QUndefined => None
  | QArray _ => None
  | QString s =>
      if String.eqb s "" then None
      else if isAddress R s then Some s else None
  end.

Definition handler (R : Runtime) (S : Services) (cfg : Config) (req : NextApiRequest)
  : M unit :=
  if negb (bool_decide (method req = Some "GET")) then
    respond 405 (ErrorBody "method not allowed")
  else
  match validAddress R (query_address req) with
  | None => respond 400 (ErrorBody "valid address is required")
  | Some address =>
  if falsy (trustedSignerPKey cfg) then
    respond 500 (ErrorBody "currently unable to sign")
  else if negb (isHex (verifiedAccountSchemaId cfg)) then
    respond 500 (ErrorBody "invalid verifiedCb1AccountSchemaId")
  else if negb (isHex (verifiedCb1AccountSchemaId cfg)) then
    respond 500 (ErrorBody "invalid verifiedCb1AccountSchemaId")
  else
  let! attestations :=
    await_getAttestations S address (chain cfg)
      [verifiedAccountSchemaId cfg; verifiedCb1AccountSchemaId cfg] in
  match attestations with
  | [] =>
      respond 200 (ProofBody {| signedMessage := None; attestations := [];
                                linkedAddresses := None |})
  | _ :: _ =>
  let! attestationsRes := mapM (fun a => lift (decodeAttestation R a)) attestations in
  try_catch
    (let! (linked, idemKey) := await_getLinkedAddresses S address in
     let kvKey := previousClaimsKVPrefix ++ idemKey in
     let! previousClaim := kv_get S kvKey in
     match previousClaim with
     | Some previous =>
         if negb (String.eqb (claim_address previous) address) then
           respond 409 (ErrorBody " ")
         else
           respond 200 (ProofBody {| signedMessage := Some (claim_signedMessage previous);
                                     attestations := attestationsRes;
                                     linkedAddresses := Some linked |})
     | None =>
         let! signed := signMessage R cfg address in
         let claim := {| claim_address := address; claim_signedMessage := signed |} in
         kv_set S kvKey claim (expiry cfg) ;;
         respond 200 (ProofBody {| signedMessage := Some (claim_signedMessage claim);
                                   attestations := attestationsRes;
                                   linkedAddresses := Some linked |})
     end)
    (fun error =>
       console_error error ;;
       respond 500 (ErrorBody "error generating discount message"))
  end
  end.

(** The route on a store, with empty logs. *)
Definition run (R : Runtime) (S : Services) (cfg : Config) (req : NextApiRequest)
    (store : gmap string (PreviousClaim * Z)) : Exc unit * World :=
  handler R S cfg req (init store).

(** ** Reading a trace *)

Definition is_kv_set (ev : Event) : bool :=
  match ev with EvKvSet _ _ _ _ => true | _ => false end.

Definition is_sign (ev : Event) : bool :=
  match ev with EvSignMessage _ _ => true | _ => false end.

Definition reply (code : Z) (payload : Body) : Response :=
  {| status := code; body := payload |}.

(** The decode of a whole list, first failure wins. *)
Fixpoint collect {A B} (f : A -> Exc B) (l : list A) : Exc (list B) :=
  match l with
  | [] => Ok []
  | x :: r =>
      match f x with
      | Thrown e => Thrown e
      | Ok y => match collect f r with
                | Thrown e => Thrown e
                | Ok ys => Ok (y :: ys)
                end
      end
  end.

(** [signMessage] reads nothing of the world: its result and the events it
    adds are those of a call in the empty world. *)
Definition signing (R : Runtime) (cfg : Config) (claimerAddress : string) : Exc string :=
  fst (signMessage R cfg claimerAddress (init ∅)).

Definition sign_events (R : Runtime) (cfg : Config) (claimerAddress : string) : list Event :=
  trace (snd (signMessage R cfg claimerAddress (init ∅))).

Definition mkWorld (store : gmap string (PreviousClaim * Z)) (tr : list Event)
    (out : list Response) (log : list Error) : World :=
  {| kv_store := store; trace := tr; sent := out; console := log |}.

Definition schemas (cfg : Config) : list (option string) :=
  [verifiedAccountSchemaId cfg; verifiedCb1AccountSchemaId cfg].

(** The guards in front of the first await. *)
Definition ready (R : Runtime) (cfg : Config) (req : NextApiRequest) (a : string) : Prop :=
  method req = Some "GET" /\
  validAddress R (query_address req) = Some a /\
  falsy (trustedSignerPKey cfg) = false /\
  isHex (verifiedAccountSchemaId cfg) = true /\
  isHex (verifiedCb1AccountSchemaId cfg) = true.

(** The request got as far as the [try] block. *)
Definition eligible (R : Runtime) (S : Services) (cfg : Config) (req : NextApiRequest)
    (a : string) (atts : list Attestation) (facts : list JsValue) : Prop :=
  ready R cfg req a /\
  getAttestations S a (chain cfg) (schemas cfg) = Ok atts /\
  atts <> [] /\
  collect (decodeAttestation R) atts = Ok facts.

Definition generic500 : Response :=
  reply 500 (ErrorBody "error generating discount message").

(** ** The paths of the route

    One constructor per way through [handler], with the result and the
    final world of that way. *)
Inductive Outcome (R : Runtime) (S : Services) (cfg : Config) (req : NextApiRequest)
    (store : gmap string (PreviousClaim * Z)) : Exc unit -> World -> Prop :=
  | O_method :
      method req <> Some "GET" ->
      Outcome R S cfg req store (Ok tt)
        (mkWorld store [] [reply 405 (ErrorBody "method not allowed")] [])
  | O_address :
      method req = Some "GET" ->
      validAddress R (query_address req) = None ->
      Outcome R S cfg req store (Ok tt)
        (mkWorld store [] [reply 400 (ErrorBody "valid address is required")] [])
  | O_no_key a :
      method req = Some "GET" ->
      validAddress R (query_address req) = Some a ->
      falsy (trustedSignerPKey cfg) = true ->
      Outcome R S cfg req store (Ok tt)
        (mkWorld store [] [reply 500 (ErrorBody "currently unable to sign")] [])
  | O_schema a :
      method req = Some "GET" ->
      validAddress R (query_address req) = Some a ->
      falsy (trustedSignerPKey cfg) = false ->
      isHex (verifiedAccountSchemaId cfg) = false \/
      isHex (verifiedCb1AccountSchemaId cfg) = false ->
      Outcome R S cfg req store (Ok tt)
        (mkWorld store [] [reply 500 (ErrorBody "invalid verifiedCb1AccountSchemaId")] [])
  | O_fetch_throws a e :
      ready R cfg req a ->
      getAttestations S a (chain cfg) (schemas cfg) = Thrown e ->
      Outcome R S cfg req store (Thrown e)
        (mkWorld store [EvGetAttestations a (chain cfg) (schemas cfg) (Thrown e)] [] [])
  | O_ineligible a :
      ready R cfg req a ->
      getAttestations S a (chain cfg) (schemas cfg) = Ok [] ->
      Outcome R S cfg req store (Ok tt)
        (mkWorld store [EvGetAttestations a (chain cfg) (schemas cfg) (Ok [])]
           [reply 200 (ProofBody {| signedMessage := None; attestations := [];
                                    linkedAddresses := None |})] [])
  | O_decode_throws a atts e :
      ready R cfg req a ->
      getAttestations S a (chain cfg) (schemas cfg) = Ok atts ->
      atts <> [] ->
      collect (decodeAttestation R) atts = Thrown e ->
      Outcome R S cfg req store (Thrown e)
        (mkWorld store [EvGetAttestations a (chain cfg) (schemas cfg) (Ok atts)] [] [])
  | O_link_throws a atts facts e :
      eligible R S cfg req a atts facts ->
      getLinkedAddresses S a = Thrown e ->
      Outcome R S cfg req store (Ok tt)
        (mkWorld store
           [EvGetAttestations a (chain cfg) (schemas cfg) (Ok atts);
            EvGetLinkedAddresses a (Thrown e)]
           [generic500] [e])
  | O_get_throws a atts facts linked idemKey e :
      eligible R S cfg req a atts facts ->
      getLinkedAddresses S a = Ok (linked, idemKey) ->
      kv_get_fault S (previousClaimsKVPrefix ++ idemKey) = Some e ->
      Outcome R S cfg req store (Ok tt)
        (mkWorld store
           [EvGetAttestations a (chain cfg) (schemas cfg) (Ok atts);
            EvGetLinkedAddresses a (Ok (linked, idemKey));
            EvKvGet (previousClaimsKVPrefix ++ idemKey) (Thrown e)]
           [generic500] [e])
  | O_conflict a atts facts linked idemKey previous ttl :
      eligible R S cfg req a atts facts ->
      getLinkedAddresses S a = Ok (linked, idemKey) ->
      kv_get_fault S (previousClaimsKVPrefix ++ idemKey) = None ->
      store !! (previousClaimsKVPrefix ++ idemKey) = Some (previous, ttl) ->
      claim_address previous <> a ->
      Outcome R S cfg req store (Ok tt)
        (mkWorld store
           [EvGetAttestations a (chain cfg) (schemas cfg) (Ok atts);
            EvGetLinkedAddresses a (Ok (linked, idemKey));
            EvKvGet (previousClaimsKVPrefix ++ idemKey) (Ok (Some previous))]
           [reply 409 (ErrorBody " ")] [])
  | O_replay a atts facts linked idemKey previous ttl :
      eligible R S cfg req a atts facts ->
      getLinkedAddresses S a = Ok (linked, idemKey) ->
      kv_get_fault S (previousClaimsKVPrefix ++ idemKey) = None ->
      store !! (previousClaimsKVPrefix ++ idemKey) = Some (previous, ttl) ->
      claim_address previous = a ->
      Outcome R S cfg req store (Ok tt)
        (mkWorld store
           [EvGetAttestations a (chain cfg) (schemas cfg) (Ok atts);
            EvGetLinkedAddresses a (Ok (linked, idemKey));
            EvKvGet (previousClaimsKVPrefix ++ idemKey) (Ok (Some previous))]
           [reply 200 (ProofBody {| signedMessage := Some (claim_signedMessage previous);
                                    attestations := facts;
                                    linkedAddresses := Some linked |})] [])
  | O_sign_throws a atts facts linked idemKey e :
      eligible R S cfg req a atts facts ->
      getLinkedAddresses S a = Ok (linked, idemKey) ->
      kv_get_fault S (previousClaimsKVPrefix ++ idemKey) = None ->
      store !! (previousClaimsKVPrefix ++ idemKey) = None ->
      signing R cfg a = Thrown e ->
      Outcome R S cfg req store (Ok tt)
        (mkWorld store
           ([EvGetAttestations a (chain cfg) (schemas cfg) (Ok atts);
             EvGetLinkedAddresses a (Ok (linked, idemKey));
             EvKvGet (previousClaimsKVPrefix ++ idemKey) (Ok None)]
              ++ sign_events R cfg a)%list
           [generic500] [e])
  | O_set_throws a atts facts linked idemKey signed e :
      eligible R S cfg req a atts facts ->
      getLinkedAddresses S a = Ok (linked, idemKey) ->
      kv_get_fault S (previousClaimsKVPrefix ++ idemKey) = None ->
      store !! (previousClaimsKVPrefix ++ idemKey) = None ->
      signing R cfg a = Ok signed ->
      kv_set_fault S (previousClaimsKVPrefix ++ idemKey)
        {| claim_address := a; claim_signedMessage := signed |} (expiry cfg) = Some e ->
      Outcome R S cfg req store (Ok tt)
        (mkWorld store
           ([EvGetAttestations a (chain cfg) (schemas cfg) (Ok atts);
             EvGetLinkedAddresses a (Ok (linked, idemKey));
             EvKvGet (previousClaimsKVPrefix ++ idemKey) (Ok None)]
              ++ sign_events R cfg a
              ++ [EvKvSet (previousClaimsKVPrefix ++ idemKey)
                    {| claim_address := a; claim_signedMessage := signed |}
                    (expiry cfg) (Thrown e)])%list
           [generic500] [e])
  | O_issued a atts facts linked idemKey signed :
      eligible R S cfg req a atts facts ->
      getLinkedAddresses S a = Ok (linked, idemKey) ->
      kv_get_fault S (previousClaimsKVPrefix ++ idemKey) = None ->
      store !! (previousClaimsKVPrefix ++ idemKey) = None ->
      signing R cfg a = Ok signed ->
      kv_set_fault S (previousClaimsKVPrefix ++ idemKey)
        {| claim_address := a; claim_signedMessage := signed |} (expiry cfg) = None ->
      Outcome R S cfg req store (Ok tt)
        (mkWorld
           (<[previousClaimsKVPrefix ++ idemKey :=
                ({| claim_address := a; claim_signedMessage := signed |}, expiry cfg)]> store)
           ([EvGetAttestations a (chain cfg) (schemas cfg) (Ok atts);
             EvGetLinkedAddresses a (Ok (linked, idemKey));
             EvKvGet (previousClaimsKVPrefix ++ idemKey) (Ok None)]
              ++ sign_events R cfg a
              ++ [EvKvSet (previousClaimsKVPrefix ++ idemKey)
                    {| claim_address := a; claim_signedMessage := signed |}
                    (expiry cfg) (Ok tt)])%list
           [reply 200 (ProofBody {| signedMessage := Some signed;
                                    attestations := facts;
                                    linkedAddresses := Some linked |})] []).

(** ** A concrete setting

    Addresses are the EIP-55 sample addresses.  The hash, the signature and
    the ABI encoding are stand-ins; [checksumAddress] and [JSON_parse] are
    tables that agree with the real functions on the texts used here. *)
Module Demo.

Definition alice : string := "0x5aaeb6053f3e94c9b9a09f33669435e7ef1beaed".
Definition alice_checksummed : string := "0x5aAeb6053F3E94C9b9A09f33669435E7Ef1BeAed".
Definition bob : string := "0xfb6916095ca1df60bb79ce92ce3ea74c37c5d359".
Definition carol : string := "0xd1220a0cf47c7b9be7a2e6ba89f429762e7b9adb".
Definition dave : string := "0x52908400098527886e0f7030069857d2e4169ee7".
Definition signer : string := "0xdbf03b407c01e7cd3cbea99509d93f8dddc8c6fb".

Definition nibble (n : N) : ascii :=
  ascii_of_N (if (n <? 10)%N then 48 + n else 87 + n).

Fixpoint render (bs : list byte) : string :=
  match bs with
  | [] => EmptyString
  | b :: r =>
      String (nibble (Byte.to_N b / 16)) (String (nibble (Byte.to_N b mod 16)) (render r))
  end.

Definition SyntaxError : Error := JsError "SyntaxError" "Unexpected token in JSON".

Definition fact : JsValue :=
  JObj [("name", JStr "verifiedAccount"); ("type", JStr "bool");
        ("signature", JStr "bool verifiedAccount");
        ("value", JObj [("name", JStr "verifiedAccount"); ("type", JStr "bool");
                        ("value", JBool true)])].

(** A text between double quotes. *)
Definition quoted (s : string) : string :=
  String (ascii_of_nat 34) (s ++ String (ascii_of_nat 34) EmptyString).

Definition pair (k v : string) : string := quoted k ++ ":" ++ v.

(** The JSON text of [[fact]]. *)
Definition fact_json : string :=
  "[{" ++ pair "name" (quoted "verifiedAccount") ++ ","
       ++ pair "type" (quoted "bool") ++ ","
       ++ pair "signature" (quoted "bool verifiedAccount") ++ ","
       ++ pair "value"
            ("{" ++ pair "name" (quoted "verifiedAccount") ++ ","
                 ++ pair "type" (quoted "bool") ++ ","
                 ++ pair "value" "true" ++ "}")
       ++ "}]".

(** ["{oops"] is no JSON. *)
Definition R : Runtime :=
  {| checksumAddress := fun s =>
       if String.eqb (Hex.toLowerCase s) alice then alice_checksummed
       else Hex.toLowerCase s;
     keccak256 := fun bs => "0x" ++ render bs;
     Account := string;
     privateKeyToAccount := fun pkey =>
       if isHex (Some pkey) && Nat.eqb (String.length pkey) 66 then Ok pkey
       else Thrown (JsError "InvalidPrivateKeyError" "private key must be 32 bytes");
     account_signMessage := fun _ hash => Ok (hash ++ "1b");
     encodeAbiParameters := fun a e sig => Ok (a ++ sig);
     JSON_parse := fun text =>
       if String.eqb text fact_json then Ok (JArr [fact])
       else Thrown SyntaxError |}.

Definition S : Services :=
  {| getAttestations := fun a _ _ =>
       if String.eqb (Hex.toLowerCase a) alice || String.eqb a bob
       then Ok [{| decodedDataJson := fact_json |}]
       else if String.eqb a carol then Ok [{| decodedDataJson := "{oops" |}]
       else Ok [];
     getLinkedAddresses := fun a => Ok ([alice; bob], "group-1");
     kv_get_fault := fun _ => None;
     kv_set_fault := fun _ _ _ => None |}.

Definition cfg : Config :=
  {| isDevelopment := false;
     trustedSignerAddress := signer;
     trustedSignerPKey :=
       Some "0x00000000000000000000000000000000000000000000000000000000000000a1";
     verifiedAccountSchemaId := Some "0xf8b0";
     verifiedCb1AccountSchemaId := Some "0x254b";
     USERNAMES_SIGNATURE_EXPIRATION_SECONDS := None |}.

Definition cfg_no_key : Config :=
  {| isDevelopment := false;
     trustedSignerAddress := signer;
     trustedSignerPKey := None;
     verifiedAccountSchemaId := Some "0xf8b0";
     verifiedCb1AccountSchemaId := Some "0x254b";
     USERNAMES_SIGNATURE_EXPIRATION_SECONDS := None |}.

(** A signer key that is present and is no key: signing fails. *)
Definition cfg_bad_key : Config :=
  {| isDevelopment := false;
     trustedSignerAddress := signer;
     trustedSignerPKey := Some "0xa1";
     verifiedAccountSchemaId := Some "0xf8b0";
     verifiedCb1AccountSchemaId := Some "0x254b";
     USERNAMES_SIGNATURE_EXPIRATION_SECONDS := None |}.

Definition get (a : string) : NextApiRequest :=
  {| method := Some "GET"; query_address := QString a |}.

Definition post (a : string) : NextApiRequest :=
  {| method := Some "POST"; query_address := QString a |}.

Definition key : string := "username:claims:group-1".

Definition alice_claim : PreviousClaim :=
  {| claim_address := alice; claim_signedMessage := "0xa11ce" |}.

Definition claimed : gmap string (PreviousClaim * Z) := {[ key := (alice_claim, 120) ]}.

End Demo.

(** ** Bytes back to text and to numbers *)

(** The text of a run of bytes, as viem writes it: [0x], then two lower-case
    digits for each byte. *)
Definition bytesToHex (bs : list byte) : string := "0x" ++ Demo.render bs.

(** The number that a run of bytes stands for, most significant byte first. *)
Definition be_value (bs : list byte) : N :=
  fold_left (fun acc b => (256 * acc + Byte.to_N b)%N) bs 0%N.

(** ** More ways to read a run *)

(** The place of an event in the order of the awaits of the route. *)
Definition stage (ev : Event) : nat :=
  match ev with
  | EvGetAttestations _ _ _ _ => 0
  | EvGetLinkedAddresses _ _ => 1
  | EvKvGet _ _ => 2
  | EvSignMessage _ _ => 3
  | EvKvSet _ _ _ _ => 4
  end.

(** The key of the store an event is about. *)
Definition event_key (ev : Event) : option string :=
  match ev with
  | EvKvGet k _ => Some k
  | EvKvSet k _ _ _ => Some k
  | _ => None
  end.

(** A write that the store accepted. *)
Definition is_committed (ev : Event) : bool :=
  match ev with
  | EvKvSet _ _ _ (Ok _) => true
  | _ => false
  end.

(** The status codes the route answers with. *)
Definition statuses : list Z := [200; 400; 405; 409; 500].

(** Every record of the store is held by an address that passed
    [isAddress], under a key of the route. *)
Definition well_formed (R : Runtime) (store : gmap string (PreviousClaim * Z)) : Prop :=
  forall k entry,
    store !! k = Some entry ->
    isAddress R (claim_address (fst entry)) = true /\
    exists idemKey, k = previousClaimsKVPrefix ++ idemKey.

(** More settings: an attestation whose payload is the JSON text [null],
    an expiry below zero, a record of another group. *)
Module Scenario.

Definition erin : string := "0xde709f2102306220921060314715629080e2fb77".

Definition R : Runtime :=
  {| checksumAddress := checksumAddress Demo.R;
     keccak256 := keccak256 Demo.R;
     Account := Account Demo.R;
     privateKeyToAccount := privateKeyToAccount Demo.R;
     account_signMessage := account_signMessage Demo.R;
     encodeAbiParameters := encodeAbiParameters Demo.R;
     JSON_parse := fun text =>
       if String.eqb text "null" then Ok JNull else JSON_parse Demo.R text |}.

Definition S : Services :=
  {| getAttestations := fun a c ids =>
       if String.eqb a erin then Ok [{| decodedDataJson := "null" |}]
       else getAttestations Demo.S a c ids;
     getLinkedAddresses := getLinkedAddresses Demo.S;
     kv_get_fault := kv_get_fault Demo.S;
     kv_set_fault := kv_set_fault Demo.S |}.

Definition cfg_negative_expiry : Config :=
  {| isDevelopment := false;
     trustedSignerAddress := Demo.signer;
     trustedSignerPKey := trustedSignerPKey Demo.cfg;
     verifiedAccountSchemaId := Some "0xf8b0";
     verifiedCb1AccountSchemaId := Some "0x254b";
     USERNAMES_SIGNATURE_EXPIRATION_SECONDS := Some (-1) |}.

Definition other_claim : PreviousClaim :=
  {| claim_address := Demo.dave; claim_signedMessage := "0xda7e" |}.

Definition other_group : gmap string (PreviousClaim * Z) :=
  {[ "username:claims:group-0" := (other_claim, 45) ]}.

End Scenario.

(** ** Lemmas on the monad and on the helpers of the route *)

Lemma mapM_lift {A B} (f : A -> Exc B) (l : list A) (w : World) :
  mapM (fun a => lift (f a)) l w = (collect f l, w).
Proof.
  induction l as [|x r IH]; simpl; [reflexivity|].
  unfold bind, lift at 1. destruct (f x); [|reflexivity].
  rewrite IH. destruct (collect f r); reflexivity.
Qed.

Ltac unfold_monad :=
  unfold await_getAttestations, await_getLinkedAddresses, await_signMessage,
    kv_get, kv_set, try_catch, bind, record, respond, console_error, lift,
    ret, throw, init, reply, mkWorld, generic500.

Lemma signMessage_run R cfg a w :
  signMessage R cfg a w =
    (signing R cfg a,
     mkWorld (kv_store w) (trace w ++ sign_events R cfg a) (sent w) (console w)).
Proof.
  unfold signing, sign_events, signMessage. unfold_monad.
  destruct w as [st tr out log]; simpl.
  destruct (trustedSignerPKey cfg) as [pkey|]; simpl;
    [destruct (privateKeyToAccount R pkey) as [acct|]; simpl|];
    rewrite ?app_nil_r; try reflexivity.
  destruct (msgHash R cfg a) as [h|]; simpl; rewrite ?app_nil_r; try reflexivity.
  destruct (account_signMessage R acct h) as [sig|]; reflexivity.
Qed.

Lemma sign_events_only_sign R cfg a ev :
  In ev (sign_events R cfg a) -> is_sign ev = true.
Proof.
  unfold sign_events, signMessage. unfold_monad. simpl.
  destruct (trustedSignerPKey cfg) as [pkey|]; simpl; [|tauto].
  destruct (privateKeyToAccount R pkey) as [acct|]; simpl; [|tauto].
  destruct (msgHash R cfg a) as [h|]; simpl; [|tauto].
  destruct (account_signMessage R acct h) as [sig|]; simpl.
  - destruct (encodeAbiParameters R a (expiry cfg) sig); simpl;
      intros [<-|[]]; reflexivity.
  - intros [<-|[]]; reflexivity.
Qed.

Lemma kv_get_run S key w :
  kv_get S key w =
    match kv_get_fault S key with
    | Some e =>
        (Thrown e,
         mkWorld (kv_store w) (trace w ++ [EvKvGet key (Thrown e)]) (sent w) (console w))
    | None =>
        (Ok (fst <$> kv_store w !! key),
         mkWorld (kv_store w)
           (trace w ++ [EvKvGet key (Ok (fst <$> kv_store w !! key))]) (sent w) (console w))
    end.
Proof. unfold_monad. destruct (kv_get_fault S key); reflexivity. Qed.

Lemma kv_set_run S key value ex w :
  kv_set S key value ex w =
    match kv_set_fault S key value ex with
    | Some e =>
        (Thrown e,
         mkWorld (kv_store w) (trace w ++ [EvKvSet key value ex (Thrown e)])
           (sent w) (console w))
    | None =>
        (Ok tt,
         mkWorld (<[key := (value, ex)]> (kv_store w))
           (trace w ++ [EvKvSet key value ex (Ok tt)]) (sent w) (console w))
    end.
Proof. unfold_monad. destruct (kv_set_fault S key value ex); reflexivity. Qed.

(** Every run of the route is one of the paths. *)
Lemma run_outcome R S cfg req store :
  Outcome R S cfg req store (fst (run R S cfg req store)) (snd (run R S cfg req store)).
Proof.
  set (on := fun p : Exc unit * World => Outcome R S cfg req store (fst p) (snd p)).
  change (on (run R S cfg req store)).
  unfold run, handler.
  case_bool_decide as Hm; simpl; [|by apply O_method].
  destruct (validAddress R (query_address req)) as [a|] eqn:Ha;
    [|by apply O_address].
  destruct (falsy (trustedSignerPKey cfg)) eqn:Hk; [by eapply O_no_key|].
  destruct (isHex (verifiedAccountSchemaId cfg)) eqn:H1; simpl;
    [|eapply O_schema; eauto].
  destruct (isHex (verifiedCb1AccountSchemaId cfg)) eqn:H2; simpl;
    [|eapply O_schema; eauto].
  assert (Hready : ready R cfg req a) by (repeat split; assumption).
  unfold bind at 1. unfold await_getAttestations, bind at 1, record at 1, lift at 1.
  simpl. fold (schemas cfg).
  destruct (getAttestations S a (chain cfg) (schemas cfg)) as [atts|e] eqn:Hatt;
    [|by apply O_fetch_throws].
  destruct atts as [|att rest] eqn:Hatts; [by apply O_ineligible|].
  rewrite <- Hatts in *.
  assert (Hne : atts <> []) by (subst atts; discriminate).
  unfold bind at 1. rewrite mapM_lift.
  destruct (collect (decodeAttestation R) atts) as [facts|e] eqn:Hdec;
    [|by eapply O_decode_throws].
  assert (Hel : eligible R S cfg req a atts facts) by (repeat split; assumption).
  unfold try_catch, bind at 1.
  unfold await_getLinkedAddresses, bind at 1, record at 1, lift at 1. simpl.
  destruct (getLinkedAddresses S a) as [[linked idemKey]|e] eqn:Hlink;
    [|by eapply O_link_throws].
  unfold bind at 1. rewrite kv_get_run. simpl.
  destruct (kv_get_fault S (previousClaimsKVPrefix ++ idemKey)) as [e|] eqn:Hgf;
    [by eapply O_get_throws|].
  destruct (store !! (previousClaimsKVPrefix ++ idemKey)) as [[previous ttl]|] eqn:Hlook;
    simpl.
  - destruct (String.eqb (claim_address previous) a) eqn:Heq; simpl.
    + apply String.eqb_eq in Heq. by eapply O_replay.
    + apply String.eqb_neq in Heq. by eapply O_conflict.
  - unfold bind at 1. rewrite signMessage_run. simpl.
    destruct (signing R cfg a) as [signed|e] eqn:Hsign;
      [|by eapply O_sign_throws].
    unfold bind at 1. rewrite kv_set_run. simpl.
    destruct (kv_set_fault S (previousClaimsKVPrefix ++ idemKey)
                {| claim_address := a; claim_signedMessage := signed |} (expiry cfg))
      as [e|] eqn:Hsf; simpl.
    + by eapply O_set_throws.
    + by eapply O_issued.
Qed.

(** ** Reasoning by paths *)

Ltac by_paths R S cfg req store Hrun :=
  let Ho := fresh "Ho" in
  pose proof (run_outcome R S cfg req store) as Ho;
  destruct (run R S cfg req store) as [?r ?w] eqn:Hrun;
  simpl in Ho |- *; destruct Ho; unfold mkWorld, generic500 in *; simpl in *.

Ltac path_facts :=
  unfold eligible, ready in *;
  repeat match goal with H : _ /\ _ |- _ => destruct H end;
  simplify_eq.

(** Splits a hypothesis [In ev tr] over a trace given path by path. *)
Ltac trace_cases :=
  repeat match goal with
    | H : _ \/ _ |- _ => destruct H
    | H : In _ (_ ++ _) |- _ => apply in_app_or in H; destruct H
    | H : In _ (_ :: _) |- _ => destruct H
    | H : In _ [] |- _ => destruct H
    | H : In _ (sign_events _ _ _) |- _ =>
        apply sign_events_only_sign in H; simpl in H; discriminate H
    | H : False |- _ => destruct H
    end;
  try discriminate.

(** Two facts about the same call give the same result. *)
Ltac same_calls :=
  repeat match goal with
    | H1 : ?t = Ok _, H2 : ?t = Ok _ |- _ => rewrite H1 in H2; simplify_eq
    | H1 : ?t = Ok _, H2 : ?t = Thrown _ |- _ => rewrite H1 in H2; discriminate H2
    | H1 : ?t = Thrown _, H2 : ?t = Thrown _ |- _ => rewrite H1 in H2; simplify_eq
    | H1 : ?t = Some _, H2 : ?t = None |- _ => rewrite H1 in H2; discriminate H2
    | H : _ \/ _ |- _ => destruct H; congruence
    end.

Lemma sign_events_no_set R cfg a : existsb is_kv_set (sign_events R cfg a) = false.
Proof.
  apply not_true_is_false. intros H. apply existsb_exists in H as (ev & Hin & Hset).
  apply sign_events_only_sign in Hin. destruct ev; discriminate.
Qed.

Lemma existsb_app_false {A} (p : A -> bool) l1 l2 :
  existsb p l1 = false -> existsb p l2 = false -> existsb p (l1 ++ l2) = false.
Proof. intros H1 H2. rewrite existsb_app, H1, H2. reflexivity. Qed.

(** ** Method rejection *)

(** C8. A request whose method is not GET is answered 405 and nothing else
    happens: no await of any service, no signature, the store as it was. *)
Theorem method_rejection R S cfg req store :
  method req <> Some "GET" ->
  run R S cfg req store =
    (Ok tt, {| kv_store := store; trace := [];
               sent := [reply 405 (ErrorBody "method not allowed")];
               console := [] |}).
Proof.
  intros Hm. unfold run, handler.
  rewrite bool_decide_eq_false_2 by exact Hm. reflexivity.
Qed.

Lemma method_rejection_witness :
  method (Demo.post Demo.alice) <> Some "GET" /\
  run Demo.R Demo.S Demo.cfg (Demo.post Demo.alice) Demo.claimed =
    (Ok tt, {| kv_store := Demo.claimed; trace := [];
               sent := [reply 405 (ErrorBody "method not allowed")];
               console := [] |}).
Proof.
  assert (H : method (Demo.post Demo.alice) <> Some "GET") by discriminate.
  split; [exact H | exact (method_rejection _ _ _ _ _ H)].
Defined.

(** ** Ineligible addresses *)

(** C5. When the attestation query of the run returns no record, the run
    is: that one query, then a 200 whose body has an empty [attestations]
    and neither [signedMessage] nor [linkedAddresses]; no identity
    resolution, no read and no write of the store.  And every 200 of any
    run carries the proof body, whose [attestations] field is always there. *)
Theorem ineligible_address R S cfg req store :
  (forall r, In r (sent (snd (run R S cfg req store))) -> status r = 200 ->
             exists p, body r = ProofBody p) /\
  (forall addr c ids,
     In (EvGetAttestations addr c ids (Ok [])) (trace (snd (run R S cfg req store))) ->
     validAddress R (query_address req) = Some addr /\
     run R S cfg req store =
       (Ok tt,
        {| kv_store := store;
           trace := [EvGetAttestations addr c ids (Ok [])];
           sent := [reply 200 (ProofBody {| signedMessage := None; attestations := [];
                                            linkedAddresses := None |})];
           console := [] |})).
Proof.
  split.
  - intros resp Hin Hst. by_paths R S cfg req store Hrun;
      trace_cases; subst resp; simpl in Hst; try discriminate; eauto.
  - intros addr c ids Hin. by_paths R S cfg req store Hrun; trace_cases.
    all: path_facts; try congruence.
    auto.
Qed.

Lemma ineligible_address_witness :
  In (EvGetAttestations Demo.dave base (schemas Demo.cfg) (Ok []))
     (trace (snd (run Demo.R Demo.S Demo.cfg (Demo.get Demo.dave) Demo.claimed))) /\
  run Demo.R Demo.S Demo.cfg (Demo.get Demo.dave) Demo.claimed =
    (Ok tt,
     {| kv_store := Demo.claimed;
        trace := [EvGetAttestations Demo.dave base (schemas Demo.cfg) (Ok [])];
        sent := [reply 200 (ProofBody {| signedMessage := None; attestations := [];
                                         linkedAddresses := None |})];
        console := [] |}).
Proof.
  assert (H : In (EvGetAttestations Demo.dave base (schemas Demo.cfg) (Ok []))
                (trace (snd (run Demo.R Demo.S Demo.cfg (Demo.get Demo.dave) Demo.claimed))))
    by (vm_compute; left; reflexivity).
  split; [exact H|].
  exact (proj2 (proj2 (ineligible_address Demo.R Demo.S Demo.cfg (Demo.get Demo.dave)
                         Demo.claimed) _ _ _ H)).
Defined.

(** ** The claim cache *)

(** C1. The store holds at most one record per key ([kv_store] is a map),
    and no run changes a record that is there: every entry of the store
    before the run is the same entry after it.  In particular, when the run
    finds a record whose address is not the requesting one, the answer is
    the 409, the store is the store it was, and the trace has no write. *)
Theorem record_never_overwritten R S cfg req store :
  (forall k entry, store !! k = Some entry ->
                   kv_store (snd (run R S cfg req store)) !! k = Some entry) /\
  (forall key previous,
     In (EvKvGet key (Ok (Some previous))) (trace (snd (run R S cfg req store))) ->
     query_address req <> QString (claim_address previous) ->
     sent (snd (run R S cfg req store)) = [reply 409 (ErrorBody " ")] /\
     kv_store (snd (run R S cfg req store)) = store /\
     existsb is_kv_set (trace (snd (run R S cfg req store))) = false /\
     exists ttl, store !! key = Some (previous, ttl)).
Proof.
  split.
  - intros k entry Hk. by_paths R S cfg req store Hrun; try exact Hk.
    destruct (decide (previousClaimsKVPrefix ++ idemKey = k)) as [Heq|Hne].
    + subst k. congruence.
    + rewrite lookup_insert_ne by exact Hne. exact Hk.
  - intros key previous Hin Hdiff.
    by_paths R S cfg req store Hrun; trace_cases.
    + simplify_eq. eauto.
    + exfalso. apply Hdiff. path_facts.
      unfold validAddress in *. destruct (query_address req); try discriminate.
      repeat case_match; congruence.
Qed.

Lemma record_never_overwritten_witness :
  In (EvKvGet Demo.key (Ok (Some Demo.alice_claim)))
     (trace (snd (run Demo.R Demo.S Demo.cfg (Demo.get Demo.bob) Demo.claimed))) /\
  query_address (Demo.get Demo.bob) <> QString (claim_address Demo.alice_claim) /\
  sent (snd (run Demo.R Demo.S Demo.cfg (Demo.get Demo.bob) Demo.claimed))
    = [reply 409 (ErrorBody " ")] /\
  kv_store (snd (run Demo.R Demo.S Demo.cfg (Demo.get Demo.bob) Demo.claimed))
    = Demo.claimed.
Proof.
  assert (H1 : In (EvKvGet Demo.key (Ok (Some Demo.alice_claim)))
                 (trace (snd (run Demo.R Demo.S Demo.cfg (Demo.get Demo.bob) Demo.claimed))))
    by (vm_compute; right; right; left; reflexivity).
  assert (H2 : query_address (Demo.get Demo.bob) <> QString (claim_address Demo.alice_claim))
    by discriminate.
  destruct (proj2 (record_never_overwritten Demo.R Demo.S Demo.cfg (Demo.get Demo.bob)
                     Demo.claimed) _ _ H1 H2) as (Hs & Hk & _).
  exact (conj H1 (conj H2 (conj Hs Hk))).
Defined.


(** ** The message that is signed *)

Module HexFacts.
Import Hex.

Lemma to_N_byte_of_N n : Byte.to_N (byte_of_N n) = (n mod 256)%N.
Proof.
  unfold byte_of_N. destruct (Byte.of_N (n mod 256)) as [b|] eqn:E.
  - by apply Byte.to_of_N.
  - apply Byte.of_N_None_iff in E.
    pose proof (N.mod_lt n 256 ltac:(discriminate)). lia.
Qed.

Lemma byte_of_N_inj x y :
  (x < 256)%N -> (y < 256)%N -> byte_of_N x = byte_of_N y -> x = y.
Proof.
  intros Hx Hy H. apply (f_equal Byte.to_N) in H.
  rewrite !to_N_byte_of_N, !N.mod_small in H by assumption. exact H.
Qed.

Lemma length_be_bytes n v : length (be_bytes n v) = n.
Proof.
  revert v. induction n as [|n IH]; intros v; simpl; [reflexivity|].
  rewrite length_app, IH. simpl. lia.
Qed.

Lemma be_bytes_inj n : forall v v',
  (v < 256 ^ N.of_nat n)%N -> (v' < 256 ^ N.of_nat n)%N ->
  be_bytes n v = be_bytes n v' -> v = v'.
Proof.
  induction n as [|n IH]; intros v v' Hv Hv' H.
  - simpl in Hv, Hv'. lia.
  - simpl in H. apply app_inj_tail in H as [Hhi Hlo].
    rewrite Nat2N.inj_succ, N.pow_succ_r' in Hv, Hv'.
    assert (v / 256 = v' / 256)%N as Hq.
    { apply IH; [| |exact Hhi]; apply N.Div0.div_lt_upper_bound; lia. }
    assert (v mod 256 = v' mod 256)%N as Hr.
    { apply byte_of_N_inj; [| |exact Hlo]; apply N.mod_lt; discriminate. }
    rewrite (N.div_mod v 256), (N.div_mod v' 256) by discriminate.
    congruence.
Qed.

Lemma pairs_length n : forall r bs,
  String.length r = (2 * n)%nat -> pairs r = Some bs -> length bs = n.
Proof.
  induction n as [|n IH]; intros r bs Hlen Hp.
  - destruct r; [|discriminate]. simpl in Hp. by inversion Hp.
  - destruct r as [|a [|b r]]; try discriminate.
    simpl in Hlen, Hp.
    destruct (digit a), (digit b), (pairs r) as [rest|] eqn:Hrest; try discriminate.
    inversion Hp; subst. simpl. f_equal. apply (IH r); [lia|exact Hrest].
Qed.

End HexFacts.

Lemma validAddress_Some R q a :
  validAddress R q = Some a -> q = QString a /\ isAddress R a = true.
Proof.
  destruct q as [|s|l]; simpl; try discriminate.
  destruct (String.eqb s ""); [discriminate|].
  destruct (isAddress R s) eqn:E; [|discriminate].
  intros [= <-]. auto.
Qed.

Lemma isAddress_shape R a : isAddress R a = true -> addressRegex a = true.
Proof.
  unfold isAddress. destruct (addressRegex a); [reflexivity|discriminate].
Qed.

Lemma packAddress_Ok R a bs :
  packAddress R a = Ok bs -> addressBytes a = Some bs /\ length bs = 20%nat.
Proof.
  unfold packAddress. destruct (isAddress R a) eqn:Hv; [|discriminate].
  destruct (addressBytes a) as [bs'|] eqn:Hb; [|discriminate].
  intros [= <-]. split; [reflexivity|].
  apply isAddress_shape in Hv. unfold addressRegex, addressBytes in *.
  destruct (strip0x a) as [r|]; [|discriminate].
  apply andb_prop in Hv as [_ Hlen]. apply Nat.eqb_eq in Hlen.
  by apply (HexFacts.pairs_length 20 r).
Qed.

Lemma packUint256_Ok v bs :
  packUint256 v = Ok bs ->
  0 <= v <= maxUint256 /\ bs = Hex.be_bytes 32 (Z.to_N v).
Proof.
  unfold packUint256.
  destruct (v <? 0) eqn:H1; [discriminate|].
  destruct (maxUint256 <? v) eqn:H2; [discriminate|]. simpl.
  intros [= <-]. split; [lia|reflexivity].
Qed.

Lemma encodePacked_Ok R signer claimer e m :
  encodePacked R signer claimer e = Ok m ->
  exists s c,
    addressBytes signer = Some s /\ length s = 20%nat /\
    addressBytes claimer = Some c /\ length c = 20%nat /\
    0 <= e <= maxUint256 /\
    m = (domainPrefix ++ s ++ c ++ Hex.be_bytes 32 (Z.to_N e))%list.
Proof.
  unfold encodePacked.
  destruct (packAddress R signer) as [s|] eqn:Hs; [|discriminate].
  destruct (packAddress R claimer) as [c|] eqn:Hc; [|discriminate].
  destruct (packUint256 e) as [x|] eqn:Hx; [|discriminate].
  intros [= <-].
  apply packAddress_Ok in Hs as [Hs Hls], Hc as [Hc Hlc].
  apply packUint256_Ok in Hx as [He ->].
  exists s, c. repeat split; auto; lia.
Qed.

Lemma uint256_fits v : 0 <= v <= maxUint256 -> (Z.to_N v < 256 ^ N.of_nat 32)%N.
Proof.
  intros H. change (256 ^ N.of_nat 32)%N with (Z.to_N (maxUint256 + 1)).
  unfold maxUint256 in *. lia.
Qed.

(** The decoding of an address, tied to its text. *)
Module HexText.
Import Hex.

Lemma digit_lower c v :
  digit c = Some v ->
  (v < 16)%N /\ Demo.nibble v = lower_ascii c.
Proof.
  destruct c as [b0 b1 b2 b3 b4 b5 b6 b7].
  destruct b0, b1, b2, b3, b4, b5, b6, b7; intros H; vm_compute in H;
    try discriminate H; injection H as <-; vm_compute; split; reflexivity.
Qed.

Lemma digit_of_lower c : digit (lower_ascii c) = digit c.
Proof.
  destruct c as [b0 b1 b2 b3 b4 b5 b6 b7].
  destruct b0, b1, b2, b3, b4, b5, b6, b7; vm_compute; reflexivity.
Qed.

Lemma byte_nibbles hi lo :
  (hi < 16)%N -> (lo < 16)%N ->
  (Byte.to_N (byte_of_N (16 * hi + lo)) / 16 = hi)%N /\
  (Byte.to_N (byte_of_N (16 * hi + lo)) mod 16 = lo)%N.
Proof.
  intros Hhi Hlo. rewrite HexFacts.to_N_byte_of_N, N.mod_small by lia.
  split; symmetry.
  - apply (N.div_unique _ 16 hi lo); [exact Hlo|reflexivity].
  - apply (N.mod_unique _ 16 hi lo); [exact Hlo|reflexivity].
Qed.

(** Decoding and writing back gives the text in lower case. *)
Lemma render_pairs n : forall r bs,
  (String.length r <= n)%nat -> pairs r = Some bs -> Demo.render bs = toLowerCase r.
Proof.
  induction n as [|n IH]; intros r bs Hlen Hp.
  - destruct r; [|simpl in Hlen; lia]. simpl in Hp. by inversion Hp.
  - destruct r as [|a [|b r]]; simpl in Hp.
    + by inversion Hp.
    + discriminate.
    + destruct (digit a) as [hi|] eqn:Ea; [|discriminate].
      destruct (digit b) as [lo|] eqn:Eb; [|discriminate].
      destruct (pairs r) as [rest|] eqn:Er; [|discriminate].
      inversion Hp; subst bs. clear Hp.
      apply digit_lower in Ea as [Hhi Ha], Eb as [Hlo Hb].
      destruct (byte_nibbles hi lo Hhi Hlo) as [Hq Hr].
      simpl. rewrite Hq, Hr, Ha, Hb.
      rewrite (IH r rest); [reflexivity| simpl in Hlen; lia | exact Er].
Qed.

(** The decoding does not see the case of the letters. *)
Lemma pairs_lower n : forall r,
  (String.length r <= n)%nat -> pairs (toLowerCase r) = pairs r.
Proof.
  induction n as [|n IH]; intros r Hlen.
  - destruct r; [reflexivity|simpl in Hlen; lia].
  - destruct r as [|a [|b r]]; try reflexivity.
    simpl. rewrite !digit_of_lower, (IH r) by (simpl in Hlen; lia). reflexivity.
Qed.

Lemma strip0x_Some a r : strip0x a = Some r -> a = String "0" (String "x" r).
Proof.
  destruct a as [|c0 [|c1 rest]]; simpl.
  - discriminate.
  - destruct c0 as [b0 b1 b2 b3 b4 b5 b6 b7].
    destruct b0, b1, b2, b3, b4, b5, b6, b7; discriminate.
  - destruct c0 as [b0 b1 b2 b3 b4 b5 b6 b7].
    destruct b0, b1, b2, b3, b4, b5, b6, b7; try discriminate.
    destruct c1 as [d0 d1 d2 d3 d4 d5 d6 d7].
    destruct d0, d1, d2, d3, d4, d5, d6, d7; try discriminate.
    intros [= <-]. reflexivity.
Qed.

Lemma addressBytes_text a bs :
  addressBytes a = Some bs -> bytesToHex bs = toLowerCase a.
Proof.
  unfold addressBytes. destruct (strip0x a) as [r|] eqn:Hr; [|discriminate].
  apply strip0x_Some in Hr as ->. intros Hp.
  unfold bytesToHex. rewrite (render_pairs (String.length r) r bs); auto.
Qed.

Lemma addressBytes_lower a bs :
  addressBytes a = Some bs -> addressBytes (toLowerCase a) = Some bs.
Proof.
  unfold addressBytes. destruct (strip0x a) as [r|] eqn:Hr; [|discriminate].
  apply strip0x_Some in Hr as ->. intros Hp.
  change (pairs (toLowerCase r) = Some bs).
  rewrite (pairs_lower (String.length r)); auto.
Qed.

(** Two address texts stand for the same bytes exactly when they are the
    same text up to the case of their letters. *)
Lemma same_bytes_same_text a b sa sb :
  addressBytes a = Some sa -> addressBytes b = Some sb ->
  sa = sb <-> toLowerCase a = toLowerCase b.
Proof.
  intros Ha Hb. split.
  - intros ->. rewrite <- (addressBytes_text a sb Ha). by apply addressBytes_text.
  - intros Heq. apply addressBytes_lower in Ha, Hb.
    rewrite Heq in Ha. congruence.
Qed.

Lemma be_value_snoc bs b :
  be_value (bs ++ [b]) = (256 * be_value bs + Byte.to_N b)%N.
Proof. unfold be_value. rewrite fold_left_app. reflexivity. Qed.

(** Reading the bytes of a number back gives the number. *)
Lemma be_value_be_bytes n : forall v,
  (v < 256 ^ N.of_nat n)%N -> be_value (be_bytes n v) = v.
Proof.
  induction n as [|n IH]; intros v Hv.
  - simpl in Hv. unfold be_value. simpl. lia.
  - simpl. rewrite be_value_snoc, HexFacts.to_N_byte_of_N.
    rewrite Nat2N.inj_succ, N.pow_succ_r' in Hv.
    rewrite IH by (apply N.Div0.div_lt_upper_bound; lia).
    rewrite N.Div0.mod_mod. symmetry. apply N.div_mod. discriminate.
Qed.

End HexText.

(** C6. The message is a function of the signer's address, the claimer's
    address and the expiry alone.  It is the two bytes 19 00, the 20 bytes
    of the signer, the 20 bytes of the claimer and the expiry on 32 bytes,
    74 bytes in all, and what is signed is the hash of exactly these bytes.
    The bytes of an address written back as text are its text in lower
    case, and the 32 bytes of the expiry read back as a number are the
    expiry.  Two messages are equal exactly when the three fields are: the
    same signer, claimer and expiry give the same bytes, and another signer
    address, another claimer address or another expiry gives other bytes.
    An address is its 20 bytes: two address texts are the same address when
    they differ in nothing but the case of their letters. *)
Theorem message_encoding R signer claimer e signer' claimer' e' m m' :
  encodePacked R signer claimer e = Ok m ->
  encodePacked R signer' claimer' e' = Ok m' ->
  (exists s c x,
     addressBytes signer = Some s /\ length s = 20%nat /\
     bytesToHex s = Hex.toLowerCase signer /\
     addressBytes claimer = Some c /\ length c = 20%nat /\
     bytesToHex c = Hex.toLowerCase claimer /\
     x = Hex.be_bytes 32 (Z.to_N e) /\ length x = 32%nat /\
     Z.of_N (be_value x) = e /\
     m = ([x19; x00] ++ s ++ c ++ x)%list /\
     length m = 74%nat) /\
  (forall cfg, trustedSignerAddress cfg = signer -> expiry cfg = e ->
               msgHash R cfg claimer = Ok (keccak256 R m)) /\
  (m = m' <->
     Hex.toLowerCase signer = Hex.toLowerCase signer' /\
     Hex.toLowerCase claimer = Hex.toLowerCase claimer' /\
     e = e') /\
  (m = m' <->
     addressBytes signer = addressBytes signer' /\
     addressBytes claimer = addressBytes claimer' /\
     e = e').
Proof.
  intros Hm Hm'.
  pose proof Hm as Hm0.
  apply encodePacked_Ok in Hm as (s & c & Hs & Hls & Hc & Hlc & He & ->).
  apply encodePacked_Ok in Hm' as (s' & c' & Hs' & Hls' & Hc' & Hlc' & He' & ->).
  assert (Hbytes :
    (domainPrefix ++ s ++ c ++ Hex.be_bytes 32 (Z.to_N e))%list =
    (domainPrefix ++ s' ++ c' ++ Hex.be_bytes 32 (Z.to_N e'))%list <->
    s = s' /\ c = c' /\ e = e').
  { split.
    - intros H. apply app_inv_head in H.
      apply app_inj_1 in H as [-> H]; [|congruence].
      apply app_inj_1 in H as [-> H]; [|congruence].
      apply HexFacts.be_bytes_inj in H; try by apply uint256_fits.
      repeat split. lia.
    - intros (-> & -> & ->). reflexivity. }
  split; [|split; [|split]].
  - exists s, c, (Hex.be_bytes 32 (Z.to_N e)).
    repeat split; auto using HexText.addressBytes_text, HexFacts.length_be_bytes.
    + rewrite HexText.be_value_be_bytes by (by apply uint256_fits). lia.
    + rewrite !length_app, HexFacts.length_be_bytes, Hls, Hlc. reflexivity.
  - intros cfg <- <-. unfold msgHash. rewrite Hm0. reflexivity.
  - rewrite Hbytes.
    rewrite (HexText.same_bytes_same_text signer signer' s s' Hs Hs').
    rewrite (HexText.same_bytes_same_text claimer claimer' c c' Hc Hc').
    reflexivity.
  - rewrite Hbytes, Hs, Hs', Hc, Hc'. split.
    + intros (-> & -> & ->). auto.
    + intros ([= ->] & [= ->] & ->). auto.
Qed.

Lemma message_encoding_witness :
  exists m m' m'',
    encodePacked Demo.R Demo.signer Demo.alice 300 = Ok m /\
    encodePacked Demo.R Demo.signer Demo.alice_checksummed 300 = Ok m' /\
    encodePacked Demo.R Demo.signer Demo.bob 300 = Ok m'' /\
    length m = 74%nat /\ m = m' /\ m <> m''.
Proof.
  eexists _, _, _.
  assert (H1 : encodePacked Demo.R Demo.signer Demo.alice 300 =
               Ok ([x19; x00] ++ Hex.be_bytes 20 0xdbf03b407c01e7cd3cbea99509d93f8dddc8c6fb
                     ++ Hex.be_bytes 20 0x5aaeb6053f3e94c9b9a09f33669435e7ef1beaed
                     ++ Hex.be_bytes 32 300)%list) by (vm_compute; reflexivity).
  assert (H2 : encodePacked Demo.R Demo.signer Demo.alice_checksummed 300 =
               Ok ([x19; x00] ++ Hex.be_bytes 20 0xdbf03b407c01e7cd3cbea99509d93f8dddc8c6fb
                     ++ Hex.be_bytes 20 0x5aaeb6053f3e94c9b9a09f33669435e7ef1beaed
                     ++ Hex.be_bytes 32 300)%list) by (vm_compute; reflexivity).
  assert (H3 : encodePacked Demo.R Demo.signer Demo.bob 300 =
               Ok ([x19; x00] ++ Hex.be_bytes 20 0xdbf03b407c01e7cd3cbea99509d93f8dddc8c6fb
                     ++ Hex.be_bytes 20 0xfb6916095ca1df60bb79ce92ce3ea74c37c5d359
                     ++ Hex.be_bytes 32 300)%list) by (vm_compute; reflexivity).
  destruct (message_encoding _ _ _ _ _ _ _ _ _ H1 H2) as (Hshape & _ & Hsame & _).
  destruct Hshape as (s & c & x & _ & _ & _ & _ & _ & _ & _ & _ & _ & _ & Hlen).
  destruct (message_encoding _ _ _ _ _ _ _ _ _ H1 H3) as (_ & _ & Hother & _).
  split; [exact H1|]. split; [exact H2|]. split; [exact H3|]. split; [exact Hlen|].
  split.
  - apply Hsame. repeat split; vm_compute; reflexivity.
  - intros Heq. apply Hother in Heq as (_ & Hclaimer & _).
    vm_compute in Hclaimer. discriminate Hclaimer.
Defined.

(** ** Replays *)

(** An entry survives [dt] seconds when it has more than [dt] seconds left. *)
Lemma lookup_elapse dt (store : gmap string (PreviousClaim * Z)) k :
  elapse dt store !! k =
    match store !! k with
    | Some (previous, ttl) => if dt <? ttl then Some (previous, ttl - dt) else None
    | None => None
    end.
Proof.
  unfold elapse. rewrite lookup_omap.
  destruct (store !! k) as [[previous ttl]|]; reflexivity.
Qed.


(** C10. When the run finds a record whose address is the requesting one,
    it writes nothing: the store after the run is the store before it, the
    record is under its key with the seconds it had left, and so the store
    looks the same after any further delay. *)
Theorem replay_leaves_store R S cfg req store key previous :
  In (EvKvGet key (Ok (Some previous))) (trace (snd (run R S cfg req store))) ->
  query_address req = QString (claim_address previous) ->
  kv_store (snd (run R S cfg req store)) = store /\
  existsb is_kv_set (trace (snd (run R S cfg req store))) = false /\
  (exists ttl, store !! key = Some (previous, ttl) /\
               kv_store (snd (run R S cfg req store)) !! key = Some (previous, ttl)) /\
  (forall dt, elapse dt (kv_store (snd (run R S cfg req store))) = elapse dt store).
Proof.
  intros Hin Hq. by_paths R S cfg req store Hrun; trace_cases.
  - simplify_eq. eauto 6.
  - simplify_eq. eauto 6.
Qed.

Lemma replay_leaves_store_witness :
  In (EvKvGet Demo.key (Ok (Some Demo.alice_claim)))
     (trace (snd (run Demo.R Demo.S Demo.cfg (Demo.get Demo.alice) Demo.claimed))) /\
  kv_store (snd (run Demo.R Demo.S Demo.cfg (Demo.get Demo.alice) Demo.claimed))
    = Demo.claimed /\
  kv_store (snd (run Demo.R Demo.S Demo.cfg (Demo.get Demo.alice) Demo.claimed)) !! Demo.key
    = Some (Demo.alice_claim, 120).
Proof.
  assert (H1 : In (EvKvGet Demo.key (Ok (Some Demo.alice_claim)))
                 (trace (snd (run Demo.R Demo.S Demo.cfg (Demo.get Demo.alice) Demo.claimed))))
    by (vm_compute; right; right; left; reflexivity).
  destruct (replay_leaves_store Demo.R Demo.S Demo.cfg (Demo.get Demo.alice) Demo.claimed
              _ _ H1 eq_refl) as (Hstore & _ & _ & _).
  split; [exact H1|]. split; [exact Hstore|].
  rewrite Hstore. vm_compute. reflexivity.
Defined.

(** C9. The address of the record and the address of the request are
    compared as texts.  A record whose address stands for the same 20 bytes
    as the requesting address and is spelled otherwise makes the run answer
    409: nothing is replayed. *)
Theorem spelling_conflict R S cfg req store key previous address :
  query_address req = QString address ->
  In (EvKvGet key (Ok (Some previous))) (trace (snd (run R S cfg req store))) ->
  addressBytes (claim_address previous) = addressBytes address ->
  claim_address previous <> address ->
  fst (run R S cfg req store) = Ok tt /\
  sent (snd (run R S cfg req store)) = [reply 409 (ErrorBody " ")] /\
  existsb is_sign (trace (snd (run R S cfg req store))) = false /\
  kv_store (snd (run R S cfg req store)) = store.
Proof.
  intros Hq Hin _ Hne. by_paths R S cfg req store Hrun; trace_cases.
  - auto.
  - exfalso. path_facts.
    match goal with H : validAddress _ _ = Some _ |- _ =>
      apply validAddress_Some in H as [Hq' _] end.
    congruence.
Qed.

Lemma spelling_conflict_witness :
  addressBytes (claim_address Demo.alice_claim) = addressBytes Demo.alice_checksummed /\
  claim_address Demo.alice_claim <> Demo.alice_checksummed /\
  sent (snd (run Demo.R Demo.S Demo.cfg (Demo.get Demo.alice_checksummed) Demo.claimed))
    = [reply 409 (ErrorBody " ")].
Proof.
  assert (H1 : In (EvKvGet Demo.key (Ok (Some Demo.alice_claim)))
                 (trace (snd (run Demo.R Demo.S Demo.cfg
                                (Demo.get Demo.alice_checksummed) Demo.claimed))))
    by (vm_compute; right; right; left; reflexivity).
  assert (H2 : addressBytes (claim_address Demo.alice_claim)
               = addressBytes Demo.alice_checksummed) by (vm_compute; reflexivity).
  assert (H3 : claim_address Demo.alice_claim <> Demo.alice_checksummed) by discriminate.
  split; [exact H2|]. split; [exact H3|].
  exact (proj1 (proj2 (spelling_conflict Demo.R Demo.S Demo.cfg
                         (Demo.get Demo.alice_checksummed) Demo.claimed _ _ _
                         eq_refl H1 H2 H3))).
Defined.

(** The path of a replay, from its conditions. *)
Lemma replay_path R S cfg req store a atts facts linked idemKey previous ttl :
  eligible R S cfg req a atts facts ->
  getLinkedAddresses S a = Ok (linked, idemKey) ->
  kv_get_fault S (previousClaimsKVPrefix ++ idemKey) = None ->
  store !! (previousClaimsKVPrefix ++ idemKey) = Some (previous, ttl) ->
  claim_address previous = a ->
  run R S cfg req store =
    (Ok tt,
     mkWorld store
       [EvGetAttestations a (chain cfg) (schemas cfg) (Ok atts);
        EvGetLinkedAddresses a (Ok (linked, idemKey));
        EvKvGet (previousClaimsKVPrefix ++ idemKey) (Ok (Some previous))]
       [reply 200 (ProofBody {| signedMessage := Some (claim_signedMessage previous);
                                attestations := facts;
                                linkedAddresses := Some linked |})] []).
Proof.
  intros Hel Hlink Hfault Hlook Haddr.
  pose proof (run_outcome R S cfg req store) as Ho.
  destruct (run R S cfg req store) as [r w]. simpl in Ho.
  destruct Ho; path_facts; same_calls; try congruence; reflexivity.
Qed.

(** C2. When the run finds a record whose address is the requesting one,
    it answers 200 with the [signedMessage] of the record and signs
    nothing.  Hence a request answered with a signed message is answered
    with the same signed message when it is sent again, and that second run
    signs nothing. *)
Theorem idempotent_replay R S cfg req store :
  (forall key previous,
     In (EvKvGet key (Ok (Some previous))) (trace (snd (run R S cfg req store))) ->
     query_address req = QString (claim_address previous) ->
     fst (run R S cfg req store) = Ok tt /\
     (exists facts linked,
        sent (snd (run R S cfg req store)) =
          [reply 200 (ProofBody {| signedMessage := Some (claim_signedMessage previous);
                                   attestations := facts;
                                   linkedAddresses := Some linked |})]) /\
     existsb is_sign (trace (snd (run R S cfg req store))) = false) /\
  (forall p signed,
     sent (snd (run R S cfg req store)) = [reply 200 (ProofBody p)] ->
     signedMessage p = Some signed ->
     sent (snd (run R S cfg req (kv_store (snd (run R S cfg req store))))) =
       [reply 200 (ProofBody p)] /\
     existsb is_sign
       (trace (snd (run R S cfg req (kv_store (snd (run R S cfg req store)))))) = false).
Proof.
  split.
  - intros key previous Hin Hq. by_paths R S cfg req store Hrun; trace_cases.
    + exfalso. path_facts.
      match goal with H : validAddress _ _ = Some _ |- _ =>
        apply validAddress_Some in H as [Hq' _] end.
      congruence.
    + simplify_eq. eauto.
  - intros p signed Hsent Hsig.
    by_paths R S cfg req store Hrun; simplify_eq; simpl in Hsig; simplify_eq.
    + (* the first run was a replay: the store is the same, so is the run *)
      rewrite Hrun. simpl. auto.
    + (* the first run issued the message: the second finds it *)
      clear Hrun.
      rewrite (replay_path R S cfg req _ a atts facts linked idemKey
                 {| claim_address := a; claim_signedMessage := signed |} (expiry cfg));
        [simpl; auto | assumption | assumption | assumption
        | apply lookup_insert_eq | reflexivity].
Qed.

Lemma idempotent_replay_witness :
  (exists facts linked,
     sent (snd (run Demo.R Demo.S Demo.cfg (Demo.get Demo.alice) Demo.claimed)) =
       [reply 200 (ProofBody {| signedMessage := Some "0xa11ce";
                                attestations := facts;
                                linkedAddresses := Some linked |})]) /\
  (exists p signed,
     sent (snd (run Demo.R Demo.S Demo.cfg (Demo.get Demo.alice) ∅)) =
       [reply 200 (ProofBody p)] /\
     signedMessage p = Some signed /\
     existsb is_sign (trace (snd (run Demo.R Demo.S Demo.cfg (Demo.get Demo.alice) ∅)))
       = true /\
     sent (snd (run Demo.R Demo.S Demo.cfg (Demo.get Demo.alice)
                  (kv_store (snd (run Demo.R Demo.S Demo.cfg (Demo.get Demo.alice) ∅))))) =
       [reply 200 (ProofBody p)] /\
     existsb is_sign
       (trace (snd (run Demo.R Demo.S Demo.cfg (Demo.get Demo.alice)
                      (kv_store (snd (run Demo.R Demo.S Demo.cfg (Demo.get Demo.alice) ∅))))))
       = false).
Proof.
  split.
  - assert (H1 : In (EvKvGet Demo.key (Ok (Some Demo.alice_claim)))
                   (trace (snd (run Demo.R Demo.S Demo.cfg (Demo.get Demo.alice)
                                  Demo.claimed))))
      by (vm_compute; right; right; left; reflexivity).
    exact (proj1 (proj2 (proj1 (idempotent_replay Demo.R Demo.S Demo.cfg
                                  (Demo.get Demo.alice) Demo.claimed) _ _ H1 eq_refl))).
  - eexists _, _.
    assert (H1 : sent (snd (run Demo.R Demo.S Demo.cfg (Demo.get Demo.alice) ∅)) =
                 [reply 200 (ProofBody
                    {| signedMessage :=
                         Some (Demo.alice ++ keccak256 Demo.R
                                 ([x19; x00]
                                    ++ Hex.be_bytes 20 0xdbf03b407c01e7cd3cbea99509d93f8dddc8c6fb
                                    ++ Hex.be_bytes 20 0x5aaeb6053f3e94c9b9a09f33669435e7ef1beaed
                                    ++ Hex.be_bytes 32 300)%list ++ "1b");
                       attestations := [Demo.fact];
                       linkedAddresses := Some [Demo.alice; Demo.bob] |})])
      by (vm_compute; reflexivity).
    destruct (proj2 (idempotent_replay Demo.R Demo.S Demo.cfg (Demo.get Demo.alice) ∅)
                _ _ H1 eq_refl) as [H2 H3].
    split; [exact H1|]. split; [reflexivity|]. split; [vm_compute; reflexivity|].
    split; [exact H2|exact H3].
Defined.

(** ** Writing the record *)

(** C4. No record is written unless the message has been signed: when
    [signMessage] fails for the requesting address the store is left as it
    was and the trace has no write.  Every write of the trace stores, for
    [expiry] seconds, the requesting address with the message that
    [signMessage] returned; an entry of the store after the run is an entry
    from before it or that record with its [expiry] seconds.  When the run
    answers anything other than 200, or throws, the store is the store it
    was. *)
Theorem write_after_signing R S cfg req store :
  (forall a e,
     validAddress R (query_address req) = Some a ->
     signing R cfg a = Thrown e ->
     kv_store (snd (run R S cfg req store)) = store /\
     existsb is_kv_set (trace (snd (run R S cfg req store))) = false) /\
  (forall key value ex result,
     In (EvKvSet key value ex result) (trace (snd (run R S cfg req store))) ->
     ex = expiry cfg /\
     validAddress R (query_address req) = Some (claim_address value) /\
     signing R cfg (claim_address value) = Ok (claim_signedMessage value)) /\
  (forall k entry,
     kv_store (snd (run R S cfg req store)) !! k = Some entry ->
     store !! k = Some entry \/
     (snd entry = expiry cfg /\
      In (EvKvSet k (fst entry) (expiry cfg) (Ok tt))
         (trace (snd (run R S cfg req store))))) /\
  (forall r, In r (sent (snd (run R S cfg req store))) -> status r <> 200 ->
             kv_store (snd (run R S cfg req store)) = store) /\
  (forall e, fst (run R S cfg req store) = Thrown e ->
             kv_store (snd (run R S cfg req store)) = store).
Proof.
  split; [|split; [|split; [|split]]].
  - intros a0 e0 Ha Hs. by_paths R S cfg req store Hrun;
      try (path_facts; congruence);
      (split; [reflexivity|]); try reflexivity.
    apply sign_events_no_set.
  - intros key value ex result Hin.
    by_paths R S cfg req store Hrun; trace_cases; simplify_eq; path_facts; auto.
  - intros k entry Hk. by_paths R S cfg req store Hrun; auto.
    destruct (decide (previousClaimsKVPrefix ++ idemKey = k)) as [Heq|Hne].
    + subst k. rewrite lookup_insert_eq in Hk. simplify_eq. right. simpl.
      split; [reflexivity|].
      do 3 right. apply in_or_app. right. left. reflexivity.
    + rewrite lookup_insert_ne in Hk by exact Hne. auto.
  - intros resp Hin Hst. by_paths R S cfg req store Hrun; try reflexivity.
    trace_cases. subst resp. simpl in Hst. congruence.
  - intros e0 Hthrown. by_paths R S cfg req store Hrun; try reflexivity.
    discriminate.
Qed.

Lemma write_after_signing_witness :
  (exists e,
     signing Demo.R Demo.cfg_bad_key Demo.alice = Thrown e /\
     kv_store (snd (run Demo.R Demo.S Demo.cfg_bad_key (Demo.get Demo.alice) ∅)) = ∅ /\
     sent (snd (run Demo.R Demo.S Demo.cfg_bad_key (Demo.get Demo.alice) ∅))
       = [generic500]) /\
  (exists value,
     In (EvKvSet Demo.key value 300 (Ok tt))
        (trace (snd (run Demo.R Demo.S Demo.cfg (Demo.get Demo.alice) ∅))) /\
     300 = expiry Demo.cfg /\
     signing Demo.R Demo.cfg (claim_address value) = Ok (claim_signedMessage value) /\
     kv_store (snd (run Demo.R Demo.S Demo.cfg (Demo.get Demo.alice) ∅)) !! Demo.key
       = Some (value, 300)).
Proof.
  split.
  - eexists.
    assert (Hs : signing Demo.R Demo.cfg_bad_key Demo.alice =
                 Thrown (JsError "InvalidPrivateKeyError" "private key must be 32 bytes"))
      by (vm_compute; reflexivity).
    assert (Ha : validAddress Demo.R (query_address (Demo.get Demo.alice)) = Some Demo.alice)
      by (vm_compute; reflexivity).
    destruct (proj1 (write_after_signing Demo.R Demo.S Demo.cfg_bad_key
                       (Demo.get Demo.alice) ∅) _ _ Ha Hs) as [Hstore _].
    split; [exact Hs|]. split; [exact Hstore|]. vm_compute. reflexivity.
  - eexists.
    assert (Hin : In (EvKvSet Demo.key
                        {| claim_address := Demo.alice;
                           claim_signedMessage :=
                             Demo.alice ++ keccak256 Demo.R
                               ([x19; x00]
                                  ++ Hex.be_bytes 20 0xdbf03b407c01e7cd3cbea99509d93f8dddc8c6fb
                                  ++ Hex.be_bytes 20 0x5aaeb6053f3e94c9b9a09f33669435e7ef1beaed
                                  ++ Hex.be_bytes 32 300)%list ++ "1b" |}
                        300 (Ok tt))
                     (trace (snd (run Demo.R Demo.S Demo.cfg (Demo.get Demo.alice) ∅))))
      by (vm_compute; do 4 right; left; reflexivity).
    destruct (proj1 (proj2 (write_after_signing Demo.R Demo.S Demo.cfg
                              (Demo.get Demo.alice) ∅)) _ _ _ _ Hin) as (Hex & _ & Hsig).
    split; [exact Hin|]. split; [exact Hex|]. split; [exact Hsig|].
    vm_compute. reflexivity.
Defined.

(** ** Configuration errors *)

(** C7 as it is worded fails: with no signer key, a POST is answered 405
    and not 500. *)
Lemma missing_key_on_post_is_405 :
  ~ (trustedSignerPKey Demo.cfg_no_key = None ->
     exists payload,
       sent (snd (run Demo.R Demo.S Demo.cfg_no_key (Demo.post Demo.alice) ∅))
         = [reply 500 payload]).
Proof.
  intros H. destruct (H eq_refl) as [payload Hp].
  vm_compute in Hp. discriminate Hp.
Qed.

(** C7, amended. When the signer key is missing or empty, or one of the
    two schema identifiers is not hexadecimal, no run awaits any service,
    signs or touches the store, whatever the request; and when the request
    is a GET with a valid address the answer is a 500. *)
Theorem config_errors_precede_calls R S cfg req store :
  falsy (trustedSignerPKey cfg) = true \/
  isHex (verifiedAccountSchemaId cfg) = false \/
  isHex (verifiedCb1AccountSchemaId cfg) = false ->
  fst (run R S cfg req store) = Ok tt /\
  trace (snd (run R S cfg req store)) = [] /\
  kv_store (snd (run R S cfg req store)) = store /\
  (method req = Some "GET" ->
   validAddress R (query_address req) <> None ->
   exists message,
     sent (snd (run R S cfg req store)) = [reply 500 (ErrorBody message)]).
Proof.
  intros Hcfg. by_paths R S cfg req store Hrun;
    try (exfalso; path_facts; destruct Hcfg as [?|[?|?]]; congruence).
  all: repeat split; try reflexivity; intros; try congruence; eauto.
Qed.

Lemma config_errors_precede_calls_witness :
  falsy (trustedSignerPKey Demo.cfg_no_key) = true /\
  trace (snd (run Demo.R Demo.S Demo.cfg_no_key (Demo.get Demo.alice) Demo.claimed)) = [] /\
  sent (snd (run Demo.R Demo.S Demo.cfg_no_key (Demo.get Demo.alice) Demo.claimed))
    = [reply 500 (ErrorBody "currently unable to sign")].
Proof.
  destruct (config_errors_precede_calls Demo.R Demo.S Demo.cfg_no_key
              (Demo.get Demo.alice) Demo.claimed (or_introl eq_refl))
    as (_ & Htrace & _ & _).
  split; [reflexivity|]. split; [exact Htrace|]. vm_compute. reflexivity.
Defined.

(** ** Failures of the collaborators *)

(** What the [try] block covers: a failure of the identity resolution, of
    the read of the store, of the signing or of the write of the store is
    logged and answered with the one generic 500. *)
Lemma failures_inside_try R S cfg req store a atts facts e :
  eligible R S cfg req a atts facts ->
  getLinkedAddresses S a = Thrown e \/
  (exists linked idemKey,
     getLinkedAddresses S a = Ok (linked, idemKey) /\
     (kv_get_fault S (previousClaimsKVPrefix ++ idemKey) = Some e \/
      (kv_get_fault S (previousClaimsKVPrefix ++ idemKey) = None /\
       store !! (previousClaimsKVPrefix ++ idemKey) = None /\
       (signing R cfg a = Thrown e \/
        exists signed,
          signing R cfg a = Ok signed /\
          kv_set_fault S (previousClaimsKVPrefix ++ idemKey)
            {| claim_address := a; claim_signedMessage := signed |} (expiry cfg)
            = Some e)))) ->
  fst (run R S cfg req store) = Ok tt /\
  sent (snd (run R S cfg req store)) = [generic500] /\
  console (snd (run R S cfg req store)) = [e] /\
  kv_store (snd (run R S cfg req store)) = store.
Proof.
  intros Hel Hfail. by_paths R S cfg req store Hrun; path_facts;
    destruct Hfail as [Hl|(linked0 & idemKey0 & Hl &
                           [Hg|(Hg & Hst & [Hs|(signed0 & Hs & Hset)])])];
    same_calls; try congruence; auto.
Qed.

(** What it does not cover: the decoding of the attestations.  A payload
    that [JSON.parse] rejects makes the route throw; no response is sent. *)
Lemma decode_failure_uncaught R S cfg req store a atts e :
  ready R cfg req a ->
  getAttestations S a (chain cfg) (schemas cfg) = Ok atts ->
  collect (decodeAttestation R) atts = Thrown e ->
  run R S cfg req store =
    (Thrown e,
     mkWorld store [EvGetAttestations a (chain cfg) (schemas cfg) (Ok atts)] [] []).
Proof.
  intros Hready Hatt Hdec.
  pose proof (run_outcome R S cfg req store) as Ho.
  destruct (run R S cfg req store) as [r w]. simpl in Ho.
  destruct Ho; path_facts; same_calls; try congruence; try reflexivity.
Qed.

(** Nor the attestation query itself. *)
Lemma fetch_failure_uncaught R S cfg req store a e :
  ready R cfg req a ->
  getAttestations S a (chain cfg) (schemas cfg) = Thrown e ->
  run R S cfg req store =
    (Thrown e,
     mkWorld store [EvGetAttestations a (chain cfg) (schemas cfg) (Thrown e)] [] []).
Proof.
  intros Hready Hatt.
  pose proof (run_outcome R S cfg req store) as Ho.
  destruct (run R S cfg req store) as [r w]. simpl in Ho.
  destruct Ho; path_facts; same_calls; try congruence; reflexivity.
Qed.

(** C3, on the code. Carol holds one attestation whose payload is no JSON:
    the route throws the [SyntaxError] of [JSON.parse] after the attestation
    query, and sends no response, where the claim has one 500. *)
Theorem malformed_attestation_escapes :
  run Demo.R Demo.S Demo.cfg (Demo.get Demo.carol) ∅ =
    (Thrown Demo.SyntaxError,
     mkWorld ∅
       [EvGetAttestations Demo.carol base (schemas Demo.cfg)
          (Ok [{| decodedDataJson := "{oops" |}])]
       [] []).
Proof.
  apply decode_failure_uncaught.
  - repeat split; vm_compute; reflexivity.
  - vm_compute. reflexivity.
  - vm_compute. reflexivity.
Qed.

(** * Further properties of the route *)

Lemma sign_events_cases R cfg a :
  (sign_events R cfg a = [] /\ exists e, signing R cfg a = Thrown e) \/
  (exists h r, sign_events R cfg a = [EvSignMessage h r] /\ msgHash R cfg a = Ok h).
Proof.
  unfold sign_events, signing, signMessage. unfold_monad. simpl.
  destruct (trustedSignerPKey cfg) as [pkey|]; simpl; [|left; eauto].
  destruct (privateKeyToAccount R pkey) as [acct|]; simpl; [|left; eauto].
  destruct (msgHash R cfg a) as [h|]; simpl; [|left; eauto].
  right. exists h, (account_signMessage R acct h).
  destruct (account_signMessage R acct h) as [sig|]; simpl; [|auto].
  destruct (encodeAbiParameters R a (expiry cfg) sig); auto.
Qed.

Lemma collect_length {A B} (f : A -> Exc B) l ys :
  collect f l = Ok ys -> length ys = length l.
Proof.
  revert ys. induction l as [|x r IH]; intros ys; simpl.
  - intros [= <-]. reflexivity.
  - destruct (f x); [|discriminate]. destruct (collect f r); [|discriminate].
    intros [= <-]. simpl. f_equal. by apply IH.
Qed.

(** ** Input validation *)

(** X1. A GET whose [address] is missing, is an array, or is a text that
    [isAddress] rejects (the empty text among them) is answered 400, whatever
    the configuration; no service is awaited and the store is untouched. *)
Theorem invalid_address_rejected R S cfg req store :
  method req = Some "GET" ->
  (forall s, query_address req = QString s -> isAddress R s = false) ->
  run R S cfg req store =
    (Ok tt,
     {| kv_store := store; trace := [];
        sent := [reply 400 (ErrorBody "valid address is required")];
        console := [] |}).
Proof.
  intros Hm Hbad. unfold run, handler.
  rewrite bool_decide_eq_true_2 by exact Hm. simpl.
  destruct (validAddress R (query_address req)) as [a|] eqn:Ha; [|reflexivity].
  apply validAddress_Some in Ha as [Hq Hok].
  rewrite (Hbad a Hq) in Hok. discriminate.
Qed.

Lemma invalid_address_rejected_witness :
  run Demo.R Demo.S Demo.cfg_no_key (Demo.get "not-an-address") Demo.claimed =
    (Ok tt,
     {| kv_store := Demo.claimed; trace := [];
        sent := [reply 400 (ErrorBody "valid address is required")];
        console := [] |}).
Proof.
  apply invalid_address_rejected; [reflexivity|].
  intros s [= <-]. vm_compute. reflexivity.
Defined.

(** ** Responses *)

(** X2. A run that returns has sent exactly one response, and a run that
    throws has sent none. *)
Theorem one_response_per_run R S cfg req store :
  match fst (run R S cfg req store) with
  | Ok _ => length (sent (snd (run R S cfg req store))) = 1%nat
  | Thrown _ => sent (snd (run R S cfg req store)) = []
  end.
Proof. by_paths R S cfg req store Hrun; reflexivity. Qed.

(** X3. The status of a response is one of 200, 400, 405, 409 and 500, and
    the body is the proof body exactly when the status is 200: every other
    status carries an [error] text. *)
Theorem status_and_body R S cfg req store :
  Forall (fun r => In (status r) statuses /\
                   (status r = 200 <-> exists p, body r = ProofBody p))
         (sent (snd (run R S cfg req store))).
Proof.
  by_paths R S cfg req store Hrun;
    first
      [ apply List.Forall_nil
      | apply List.Forall_cons; [|apply List.Forall_nil];
        split; [unfold statuses; simpl; auto 10|];
        split; [intros Hs; try discriminate Hs; eauto
               |intros [p Hp]; try discriminate Hp; reflexivity] ].
Qed.

(** X4. The awaits of a run come in the order attestation query, identity
    resolution, read of the store, signature, write of the store, and none
    of them happens twice. *)
Theorem awaits_in_order R S cfg req store :
  StronglySorted Nat.lt (map stage (trace (snd (run R S cfg req store)))).
Proof.
  by_paths R S cfg req store Hrun;
    try (destruct (sign_events_cases R cfg a) as [[-> _]|(h & r0 & -> & _)]);
    simpl; repeat constructor; simpl; lia.
Qed.

(** X5. An error is written to the console exactly when the generic 500 is
    sent, and then it is one error and the run returns: the other answers,
    and the runs that throw, log nothing. *)
Theorem logged_with_generic_500 R S cfg req store :
  (console (snd (run R S cfg req store)) = [] /\
   sent (snd (run R S cfg req store)) <> [generic500]) \/
  (exists e, console (snd (run R S cfg req store)) = [e] /\
             sent (snd (run R S cfg req store)) = [generic500] /\
             fst (run R S cfg req store) = Ok tt).
Proof.
  by_paths R S cfg req store Hrun; try (right; eauto; fail);
    left; (split; [reflexivity|discriminate]).
Qed.

(** ** The store across a run *)

(** X6. The store changes only through a write that the store accepted.
    With no such write in the trace the store is as it was.  With one, its
    key held nothing before, the store is the old store with that one record
    added, and the run has answered 200 with the message of the record. *)
Theorem store_changes_only_by_issue R S cfg req store :
  (existsb is_committed (trace (snd (run R S cfg req store))) = false ->
   kv_store (snd (run R S cfg req store)) = store) /\
  (forall key value ex,
     In (EvKvSet key value ex (Ok tt)) (trace (snd (run R S cfg req store))) ->
     store !! key = None /\
     kv_store (snd (run R S cfg req store)) = <[key := (value, ex)]> store /\
     exists facts linked,
       sent (snd (run R S cfg req store)) =
         [reply 200 (ProofBody {| signedMessage := Some (claim_signedMessage value);
                                  attestations := facts;
                                  linkedAddresses := Some linked |})]).
Proof.
  split.
  - intros Hno. by_paths R S cfg req store Hrun; try reflexivity.
    rewrite existsb_app in Hno. simpl in Hno.
    rewrite orb_true_r in Hno. discriminate.
  - intros key value ex Hin.
    by_paths R S cfg req store Hrun; trace_cases; simplify_eq; eauto.
Qed.

Lemma store_changes_only_by_issue_witness :
  existsb is_committed
    (trace (snd (run Demo.R Demo.S Demo.cfg (Demo.get Demo.bob) Demo.claimed))) = false /\
  kv_store (snd (run Demo.R Demo.S Demo.cfg (Demo.get Demo.bob) Demo.claimed))
    = Demo.claimed /\
  exists value,
    In (EvKvSet Demo.key value 300 (Ok tt))
       (trace (snd (run Demo.R Demo.S Demo.cfg (Demo.get Demo.alice) Scenario.other_group))) /\
    kv_store (snd (run Demo.R Demo.S Demo.cfg (Demo.get Demo.alice) Scenario.other_group))
      = <[Demo.key := (value, 300)]> Scenario.other_group.
Proof.
  assert (H1 : existsb is_committed
                 (trace (snd (run Demo.R Demo.S Demo.cfg (Demo.get Demo.bob) Demo.claimed)))
               = false) by (vm_compute; reflexivity).
  split; [exact H1|].
  split; [exact (proj1 (store_changes_only_by_issue Demo.R Demo.S Demo.cfg
                          (Demo.get Demo.bob) Demo.claimed) H1)|].
  eexists.
  assert (H2 : In (EvKvSet Demo.key
                     {| claim_address := Demo.alice;
                        claim_signedMessage :=
                          Demo.alice ++ keccak256 Demo.R
                            ([x19; x00]
                               ++ Hex.be_bytes 20 0xdbf03b407c01e7cd3cbea99509d93f8dddc8c6fb
                               ++ Hex.be_bytes 20 0x5aaeb6053f3e94c9b9a09f33669435e7ef1beaed
                               ++ Hex.be_bytes 32 300)%list ++ "1b" |}
                     300 (Ok tt))
                  (trace (snd (run Demo.R Demo.S Demo.cfg (Demo.get Demo.alice)
                                 Scenario.other_group))))
    by (vm_compute; do 4 right; left; reflexivity).
  split; [exact H2|].
  exact (proj1 (proj2 (proj2 (store_changes_only_by_issue Demo.R Demo.S Demo.cfg
                                (Demo.get Demo.alice) Scenario.other_group) _ _ _ H2))).
Defined.

(** X7. Two requests that resolve to the same key: when the first has
    written its record and the second, for another address, reads that key,
    the read returns the record of the first, the second is answered 409 and
    the store still holds the record of the first, as written.  The second
    run may use other services and another configuration. *)
Theorem second_claimant_conflicts R S cfg reqA store R' S' cfg' reqB key value ex got :
  In (EvKvSet key value ex (Ok tt)) (trace (snd (run R S cfg reqA store))) ->
  In (EvKvGet key (Ok got))
     (trace (snd (run R' S' cfg' reqB (kv_store (snd (run R S cfg reqA store)))))) ->
  query_address reqB <> QString (claim_address value) ->
  got = Some value /\
  sent (snd (run R' S' cfg' reqB (kv_store (snd (run R S cfg reqA store)))))
    = [reply 409 (ErrorBody " ")] /\
  kv_store (snd (run R' S' cfg' reqB (kv_store (snd (run R S cfg reqA store)))))
    = kv_store (snd (run R S cfg reqA store)) /\
  kv_store (snd (run R S cfg reqA store)) !! key = Some (value, ex).
Proof.
  intros HinA HinB Hdiff.
  pose proof (run_outcome R S cfg reqA store) as HoA.
  destruct (run R S cfg reqA store) as [rA wA]. simpl in *.
  assert (HwA : kv_store wA !! key = Some (value, ex)).
  { destruct HoA; unfold mkWorld in *; simpl in *; trace_cases.
    simplify_eq. apply lookup_insert_eq. }
  clear HoA HinA.
  pose proof (run_outcome R' S' cfg' reqB (kv_store wA)) as HoB.
  destruct (run R' S' cfg' reqB (kv_store wA)) as [rB wB]. simpl in *.
  destruct HoB; unfold mkWorld in *; simpl in *; trace_cases; simplify_eq.
  - auto.
  - exfalso. apply Hdiff. path_facts.
    match goal with H : validAddress _ _ = Some _ |- _ =>
      apply validAddress_Some in H as [Hq _] end.
    exact Hq.
Qed.

Lemma second_claimant_conflicts_witness :
  exists value,
    sent (snd (run Demo.R Demo.S Demo.cfg (Demo.get Demo.bob)
                 (kv_store (snd (run Demo.R Demo.S Demo.cfg (Demo.get Demo.alice) ∅)))))
      = [reply 409 (ErrorBody " ")] /\
    kv_store (snd (run Demo.R Demo.S Demo.cfg (Demo.get Demo.alice) ∅)) !! Demo.key
      = Some (value, 300) /\
    claim_address value = Demo.alice.
Proof.
  eexists.
  assert (HA : In (EvKvSet Demo.key
                     {| claim_address := Demo.alice;
                        claim_signedMessage :=
                          Demo.alice ++ keccak256 Demo.R
                            ([x19; x00]
                               ++ Hex.be_bytes 20 0xdbf03b407c01e7cd3cbea99509d93f8dddc8c6fb
                               ++ Hex.be_bytes 20 0x5aaeb6053f3e94c9b9a09f33669435e7ef1beaed
                               ++ Hex.be_bytes 32 300)%list ++ "1b" |}
                     300 (Ok tt))
                  (trace (snd (run Demo.R Demo.S Demo.cfg (Demo.get Demo.alice) ∅))))
    by (vm_compute; do 4 right; left; reflexivity).
  assert (HB : In (EvKvGet Demo.key
                     (Ok (Some {| claim_address := Demo.alice;
                                  claim_signedMessage :=
                                    Demo.alice ++ keccak256 Demo.R
                                      ([x19; x00]
                                         ++ Hex.be_bytes 20 0xdbf03b407c01e7cd3cbea99509d93f8dddc8c6fb
                                         ++ Hex.be_bytes 20 0x5aaeb6053f3e94c9b9a09f33669435e7ef1beaed
                                         ++ Hex.be_bytes 32 300)%list ++ "1b" |})))
                  (trace (snd (run Demo.R Demo.S Demo.cfg (Demo.get Demo.bob)
                                 (kv_store (snd (run Demo.R Demo.S Demo.cfg
                                                   (Demo.get Demo.alice) ∅)))))))
    by (vm_compute; do 2 right; left; reflexivity).
  destruct (second_claimant_conflicts Demo.R Demo.S Demo.cfg (Demo.get Demo.alice) ∅
              Demo.R Demo.S Demo.cfg (Demo.get Demo.bob) _ _ _ _ HA HB)
    as (_ & Hsent & _ & Hkept); [discriminate|].
  split; [exact Hsent|]. split; [exact Hkept|]. reflexivity.
Defined.

(** X8. Every read and every write of the store in a run is under the one
    key made of the prefix and of the idempotency key that the identity
    resolution of that run returned for the requesting address. *)
Theorem store_key_from_identity R S cfg req store ev key :
  In ev (trace (snd (run R S cfg req store))) ->
  event_key ev = Some key ->
  exists a linked idemKey,
    validAddress R (query_address req) = Some a /\
    In (EvGetLinkedAddresses a (Ok (linked, idemKey)))
       (trace (snd (run R S cfg req store))) /\
    key = previousClaimsKVPrefix ++ idemKey.
Proof.
  intros Hin Hkey.
  by_paths R S cfg req store Hrun; trace_cases; try subst ev; simpl in Hkey;
    try discriminate Hkey;
    try match goal with
        | H : In _ (sign_events _ _ _) |- _ =>
            apply sign_events_only_sign in H; destruct ev; discriminate
        end;
    simplify_eq; path_facts;
    (do 3 eexists; split; [eassumption|];
     split; [right; left; reflexivity|reflexivity]).
Qed.

Lemma store_key_from_identity_witness :
  In (EvKvGet Demo.key (Ok (Some Demo.alice_claim)))
     (trace (snd (run Demo.R Demo.S Demo.cfg (Demo.get Demo.bob) Demo.claimed))) /\
  exists a linked idemKey,
    validAddress Demo.R (query_address (Demo.get Demo.bob)) = Some a /\
    In (EvGetLinkedAddresses a (Ok (linked, idemKey)))
       (trace (snd (run Demo.R Demo.S Demo.cfg (Demo.get Demo.bob) Demo.claimed))) /\
    Demo.key = previousClaimsKVPrefix ++ idemKey.
Proof.
  assert (Hin : In (EvKvGet Demo.key (Ok (Some Demo.alice_claim)))
                  (trace (snd (run Demo.R Demo.S Demo.cfg (Demo.get Demo.bob) Demo.claimed))))
    by (vm_compute; do 2 right; left; reflexivity).
  split; [exact Hin|].
  exact (store_key_from_identity Demo.R Demo.S Demo.cfg (Demo.get Demo.bob)
           Demo.claimed _ Demo.key Hin eq_refl).
Defined.

(** X9. A store in which every record is held by an address that passed
    [isAddress], under a key that starts with the prefix of the route, is
    still such a store after any run. *)
Theorem well_formed_preserved R S cfg req store :
  well_formed R store ->
  well_formed R (kv_store (snd (run R S cfg req store))).
Proof.
  intros Hwf. by_paths R S cfg req store Hrun; try exact Hwf.
  intros k entry Hk.
  destruct (decide (previousClaimsKVPrefix ++ idemKey = k)) as [Heq|Hne].
  - subst k. rewrite lookup_insert_eq in Hk. simplify_eq. simpl.
    path_facts.
    match goal with H : validAddress _ _ = Some _ |- _ =>
      apply validAddress_Some in H as [_ Hok] end.
    eauto.
  - rewrite lookup_insert_ne in Hk by exact Hne. by apply Hwf.
Qed.

Lemma well_formed_preserved_witness :
  well_formed Demo.R Scenario.other_group /\
  well_formed Demo.R
    (kv_store (snd (run Demo.R Demo.S Demo.cfg (Demo.get Demo.alice) Scenario.other_group))) /\
  is_Some (kv_store (snd (run Demo.R Demo.S Demo.cfg (Demo.get Demo.alice)
                            Scenario.other_group)) !! Demo.key).
Proof.
  assert (Hwf : well_formed Demo.R Scenario.other_group).
  { intros k entry Hk. unfold Scenario.other_group in Hk.
    apply lookup_singleton_Some in Hk as [<- <-].
    split; [vm_compute; reflexivity|exists "group-0"; reflexivity]. }
  split; [exact Hwf|].
  split; [exact (well_formed_preserved Demo.R Demo.S Demo.cfg (Demo.get Demo.alice)
                   Scenario.other_group Hwf)|].
  vm_compute. eexists. reflexivity.
Defined.

(** ** What a 200 carries *)

(** X10. The [attestations] of a 200 are the decoded payloads of the
    attestations that the query of that run returned, one for each and in
    their order. *)
Theorem facts_follow_attestations R S cfg req store a c ids atts p :
  In (EvGetAttestations a c ids (Ok atts)) (trace (snd (run R S cfg req store))) ->
  sent (snd (run R S cfg req store)) = [reply 200 (ProofBody p)] ->
  collect (decodeAttestation R) atts = Ok (attestations p) /\
  length (attestations p) = length atts.
Proof.
  intros Hin Hsent.
  assert (H : collect (decodeAttestation R) atts = Ok (attestations p)).
  { by_paths R S cfg req store Hrun; trace_cases; simplify_eq; simpl;
      try reflexivity; path_facts; assumption. }
  split; [exact H|]. by apply collect_length in H.
Qed.

Lemma facts_follow_attestations_witness :
  exists p,
    sent (snd (run Demo.R Demo.S Demo.cfg (Demo.get Demo.alice) Demo.claimed))
      = [reply 200 (ProofBody p)] /\
    attestations p = [Demo.fact] /\
    length (attestations p) = 1%nat.
Proof.
  eexists.
  assert (Hin : In (EvGetAttestations Demo.alice base (schemas Demo.cfg)
                      (Ok [{| decodedDataJson := Demo.fact_json |}]))
                  (trace (snd (run Demo.R Demo.S Demo.cfg (Demo.get Demo.alice)
                                 Demo.claimed))))
    by (vm_compute; left; reflexivity).
  assert (Hsent : sent (snd (run Demo.R Demo.S Demo.cfg (Demo.get Demo.alice) Demo.claimed))
                  = [reply 200 (ProofBody {| signedMessage := Some "0xa11ce";
                                             attestations := [Demo.fact];
                                             linkedAddresses := Some [Demo.alice; Demo.bob] |})])
    by (vm_compute; reflexivity).
  destruct (facts_follow_attestations _ _ _ _ _ _ _ _ _ _ Hin Hsent) as [_ Hlen].
  split; [exact Hsent|]. split; [reflexivity|exact Hlen].
Defined.

(** X11. What is returned is what is cached: after a 200 with a signed
    message, the store holds, under the key of the identity resolution of
    that run, the record of the requesting address with that very message,
    and the [linkedAddresses] of the body are those the resolution returned. *)
Theorem returned_message_is_cached R S cfg req store p signed :
  sent (snd (run R S cfg req store)) = [reply 200 (ProofBody p)] ->
  signedMessage p = Some signed ->
  exists a linked idemKey ttl,
    validAddress R (query_address req) = Some a /\
    getLinkedAddresses S a = Ok (linked, idemKey) /\
    linkedAddresses p = Some linked /\
    kv_store (snd (run R S cfg req store)) !! (previousClaimsKVPrefix ++ idemKey) =
      Some ({| claim_address := a; claim_signedMessage := signed |}, ttl).
Proof.
  intros Hsent Hsig.
  by_paths R S cfg req store Hrun; simplify_eq; simpl in Hsig; simplify_eq.
  - destruct previous as [addr msg]. simpl in *. path_facts.
    do 4 eexists. repeat split; eauto.
  - path_facts. do 4 eexists. repeat split; eauto. apply lookup_insert_eq.
Qed.

Lemma returned_message_is_cached_witness :
  exists p signed ttl,
    sent (snd (run Demo.R Demo.S Demo.cfg (Demo.get Demo.alice) Scenario.other_group))
      = [reply 200 (ProofBody p)] /\
    signedMessage p = Some signed /\
    kv_store (snd (run Demo.R Demo.S Demo.cfg (Demo.get Demo.alice) Scenario.other_group))
      !! Demo.key
      = Some ({| claim_address := Demo.alice; claim_signedMessage := signed |}, ttl).
Proof.
  assert (Hsent : sent (snd (run Demo.R Demo.S Demo.cfg (Demo.get Demo.alice)
                               Scenario.other_group))
                  = [reply 200 (ProofBody
                       {| signedMessage :=
                            Some (Demo.alice ++ keccak256 Demo.R
                                    ([x19; x00]
                                       ++ Hex.be_bytes 20 0xdbf03b407c01e7cd3cbea99509d93f8dddc8c6fb
                                       ++ Hex.be_bytes 20 0x5aaeb6053f3e94c9b9a09f33669435e7ef1beaed
                                       ++ Hex.be_bytes 32 300)%list ++ "1b");
                          attestations := [Demo.fact];
                          linkedAddresses := Some [Demo.alice; Demo.bob] |})])
    by (vm_compute; reflexivity).
  destruct (returned_message_is_cached _ _ _ _ _ _ _ Hsent eq_refl)
    as (a & linked & idemKey & ttl & Ha & Hlink & _ & Hstore).
  vm_compute in Ha. injection Ha as <-.
  vm_compute in Hlink. injection Hlink as <- <-.
  do 3 eexists. split; [exact Hsent|]. split; [reflexivity|exact Hstore].
Defined.

(** ** Conflicts and throws *)

(** X12. A 409 is sent only when the store holds, under the key the run
    read, a record whose address is not the requesting one. *)
Theorem conflict_means_other_holder R S cfg req store r :
  In r (sent (snd (run R S cfg req store))) ->
  status r = 409 ->
  exists a key previous ttl,
    validAddress R (query_address req) = Some a /\
    In (EvKvGet key (Ok (Some previous))) (trace (snd (run R S cfg req store))) /\
    store !! key = Some (previous, ttl) /\
    claim_address previous <> a.
Proof.
  intros Hin Hst.
  by_paths R S cfg req store Hrun; trace_cases; subst r; simpl in Hst;
    try discriminate Hst.
  path_facts. do 4 eexists. split; [eassumption|].
  split; [do 2 right; left; reflexivity|]. split; eassumption.
Qed.

Lemma conflict_means_other_holder_witness :
  In (reply 409 (ErrorBody " "))
     (sent (snd (run Demo.R Demo.S Demo.cfg (Demo.get Demo.bob) Demo.claimed))) /\
  exists a key previous ttl,
    validAddress Demo.R (query_address (Demo.get Demo.bob)) = Some a /\
    In (EvKvGet key (Ok (Some previous)))
       (trace (snd (run Demo.R Demo.S Demo.cfg (Demo.get Demo.bob) Demo.claimed))) /\
    Demo.claimed !! key = Some (previous, ttl) /\
    claim_address previous <> a.
Proof.
  assert (Hin : In (reply 409 (ErrorBody " "))
                  (sent (snd (run Demo.R Demo.S Demo.cfg (Demo.get Demo.bob) Demo.claimed))))
    by (vm_compute; left; reflexivity).
  split; [exact Hin|].
  exact (conflict_means_other_holder Demo.R Demo.S Demo.cfg (Demo.get Demo.bob)
           Demo.claimed _ Hin eq_refl).
Defined.

(** X13. A run throws only at the attestation query or at the decoding of
    its result: the trace is then that one query, nothing has been sent or
    logged and the store is as it was.  From the identity resolution on, no
    run throws. *)
Theorem throws_only_before_try R S cfg req store e :
  fst (run R S cfg req store) = Thrown e ->
  exists a result,
    ready R cfg req a /\
    getAttestations S a (chain cfg) (schemas cfg) = result /\
    (result = Thrown e \/
     exists atts, result = Ok atts /\ collect (decodeAttestation R) atts = Thrown e) /\
    snd (run R S cfg req store) =
      mkWorld store [EvGetAttestations a (chain cfg) (schemas cfg) result] [] [].
Proof.
  intros Hthrown.
  by_paths R S cfg req store Hrun; try discriminate Hthrown; simplify_eq.
  - do 2 eexists. split; [eassumption|]. split; [eassumption|]. auto.
  - do 2 eexists. split; [eassumption|]. split; [eassumption|]. eauto.
Qed.

Lemma throws_only_before_try_witness :
  fst (run Demo.R Demo.S Demo.cfg (Demo.get Demo.carol) Demo.claimed)
    = Thrown Demo.SyntaxError /\
  sent (snd (run Demo.R Demo.S Demo.cfg (Demo.get Demo.carol) Demo.claimed)) = [] /\
  kv_store (snd (run Demo.R Demo.S Demo.cfg (Demo.get Demo.carol) Demo.claimed))
    = Demo.claimed.
Proof.
  assert (H : fst (run Demo.R Demo.S Demo.cfg (Demo.get Demo.carol) Demo.claimed)
              = Thrown Demo.SyntaxError) by (vm_compute; reflexivity).
  destruct (throws_only_before_try _ _ _ _ _ _ H) as (a & result & _ & _ & _ & Hw).
  split; [exact H|]. rewrite Hw. split; reflexivity.
Defined.

(** X14. An attestation whose payload is the JSON text of [null] makes the
    route throw a [TypeError]: [JSON.parse] accepts the text and the index
    [[0]] of its result does not exist.  No response is sent. *)
Theorem null_payload_throws R S cfg req store a att rest :
  ready R cfg req a ->
  getAttestations S a (chain cfg) (schemas cfg) = Ok (att :: rest) ->
  JSON_parse R (decodedDataJson att) = Ok JNull ->
  run R S cfg req store =
    (Thrown (TypeError "Cannot read properties of null"),
     mkWorld store
       [EvGetAttestations a (chain cfg) (schemas cfg) (Ok (att :: rest))] [] []).
Proof.
  intros Hready Hatt Hnull. apply decode_failure_uncaught; try assumption.
  simpl. unfold decodeAttestation. rewrite Hnull. reflexivity.
Qed.

Lemma null_payload_throws_witness :
  run Scenario.R Scenario.S Demo.cfg (Demo.get Scenario.erin) ∅ =
    (Thrown (TypeError "Cannot read properties of null"),
     mkWorld ∅
       [EvGetAttestations Scenario.erin base (schemas Demo.cfg)
          (Ok [{| decodedDataJson := "null" |}])] [] []).
Proof.
  apply (null_payload_throws Scenario.R Scenario.S Demo.cfg (Demo.get Scenario.erin) ∅
           Scenario.erin {| decodedDataJson := "null" |} []).
  - repeat split; vm_compute; reflexivity.
  - vm_compute. reflexivity.
  - vm_compute. reflexivity.
Defined.

(** ** Signing *)

Lemma pairs_total n : forall r,
  String.length r = (2 * n)%nat -> Hex.all_digits r = true ->
  exists bs, Hex.pairs r = Some bs.
Proof.
  induction n as [|n IH]; intros r Hlen Hd.
  - destruct r; [|discriminate]. exists []. reflexivity.
  - destruct r as [|c0 [|c1 r]]; simpl in Hlen; [lia|lia|].
    simpl in Hd. unfold Hex.is_digit in Hd.
    destruct (Hex.digit c0) as [hi|] eqn:E0; [|discriminate].
    destruct (Hex.digit c1) as [lo|] eqn:E1; [|discriminate].
    destruct (IH r ltac:(lia) Hd) as [rest Hrest].
    simpl. rewrite E0, E1, Hrest. eauto.
Qed.

Lemma packAddress_valid R a :
  isAddress R a = true -> exists bs, packAddress R a = Ok bs.
Proof.
  intros Hv. unfold packAddress. rewrite Hv.
  pose proof (isAddress_shape R a Hv) as Hshape.
  unfold addressRegex, addressBytes in *.
  destruct (strip0x a) as [r|]; [|discriminate].
  apply andb_prop in Hshape as [Hd Hlen]. apply Nat.eqb_eq in Hlen.
  destruct (pairs_total 20 r Hlen Hd) as [bs ->]. eauto.
Qed.

(** X15. When [signMessage] returns, the account made from the configured
    key has signed once, and what it signed is the hash of the message
    packed from the configured signer, the claimer and the expiry; what is
    returned is the ABI encoding of that claimer, that expiry and that
    signature.  Nothing else of the world has changed. *)
Theorem signMessage_returns R cfg a w out :
  fst (signMessage R cfg a w) = Ok out ->
  exists pkey (acct : Account R) m sig,
    trustedSignerPKey cfg = Some pkey /\
    privateKeyToAccount R pkey = Ok acct /\
    encodePacked R (trustedSignerAddress cfg) a (expiry cfg) = Ok m /\
    account_signMessage R acct (keccak256 R m) = Ok sig /\
    encodeAbiParameters R a (expiry cfg) sig = Ok out /\
    snd (signMessage R cfg a w) =
      mkWorld (kv_store w) (trace w ++ [EvSignMessage (keccak256 R m) (Ok sig)])
        (sent w) (console w).
Proof.
  unfold signMessage, msgHash. unfold_monad. simpl.
  destruct (trustedSignerPKey cfg) as [pkey|]; simpl; [|discriminate].
  destruct (privateKeyToAccount R pkey) as [acct|] eqn:Hacct; simpl; [|discriminate].
  destruct (encodePacked R (trustedSignerAddress cfg) a (expiry cfg)) as [m|] eqn:Hm;
    simpl; [|discriminate].
  destruct (account_signMessage R acct (keccak256 R m)) as [sig|] eqn:Hsig;
    simpl; [|discriminate].
  destruct (encodeAbiParameters R a (expiry cfg) sig) as [enc|] eqn:Henc;
    simpl; [|discriminate].
  intros [= <-]. exists pkey, acct, m, sig. auto 7.
Qed.

Lemma signMessage_returns_witness :
  exists out m sig,
    fst (signMessage Demo.R Demo.cfg Demo.alice (init Demo.claimed)) = Ok out /\
    length m = 74%nat /\
    trace (snd (signMessage Demo.R Demo.cfg Demo.alice (init Demo.claimed)))
      = [EvSignMessage (keccak256 Demo.R m) (Ok sig)] /\
    encodeAbiParameters Demo.R Demo.alice 300 sig = Ok out.
Proof.
  assert (H : fst (signMessage Demo.R Demo.cfg Demo.alice (init Demo.claimed)) =
              Ok (Demo.alice ++ keccak256 Demo.R
                    ([x19; x00]
                       ++ Hex.be_bytes 20 0xdbf03b407c01e7cd3cbea99509d93f8dddc8c6fb
                       ++ Hex.be_bytes 20 0x5aaeb6053f3e94c9b9a09f33669435e7ef1beaed
                       ++ Hex.be_bytes 32 300)%list ++ "1b"))
    by (vm_compute; reflexivity).
  destruct (signMessage_returns _ _ _ _ _ H)
    as (pkey & acct & m & sig & _ & _ & Hm & _ & Henc & Hw).
  apply encodePacked_Ok in Hm as (s & c & _ & Hls & _ & Hlc & _ & Hmeq).
  eexists _, m, sig. split; [exact H|]. split.
  - rewrite Hmeq, !length_app, HexFacts.length_be_bytes, Hls, Hlc. reflexivity.
  - rewrite Hw. split; [reflexivity|exact Henc].
Defined.

(** X16. When the configured signer address is not an address, or the
    expiry is below zero or above the largest [uint256], [signMessage]
    throws before it signs: the world is left exactly as it was. *)
Theorem unencodable_never_signed R cfg a w :
  isAddress R (trustedSignerAddress cfg) = false \/
  expiry cfg < 0 \/ maxUint256 < expiry cfg ->
  (exists e, fst (signMessage R cfg a w) = Thrown e) /\
  snd (signMessage R cfg a w) = w.
Proof.
  intros Hbad.
  assert (Henc : exists e, msgHash R cfg a = Thrown e).
  { unfold msgHash, encodePacked, packAddress, packUint256.
    destruct Hbad as [Hs|Hx].
    - rewrite Hs. eauto.
    - destruct (isAddress R (trustedSignerAddress cfg)); [|eauto].
      destruct (addressBytes (trustedSignerAddress cfg)); [|eauto].
      destruct (isAddress R a); [|eauto].
      destruct (addressBytes a); [|eauto].
      assert ((expiry cfg <? 0) || (maxUint256 <? expiry cfg) = true) as ->.
      { apply orb_true_iff. destruct Hx; [left|right]; lia. }
      eauto. }
  destruct Henc as [e He].
  unfold signMessage. unfold_monad. destruct w as [st tr out log]. simpl.
  destruct (trustedSignerPKey cfg) as [pkey|]; simpl; [|eauto].
  destruct (privateKeyToAccount R pkey) as [acct|]; simpl; [|eauto].
  rewrite He. simpl. eauto.
Qed.

Lemma unencodable_never_signed_witness :
  expiry Scenario.cfg_negative_expiry < 0 /\
  fst (signMessage Demo.R Scenario.cfg_negative_expiry Demo.alice (init Demo.claimed))
    = Thrown IntegerOutOfRangeError /\
  snd (signMessage Demo.R Scenario.cfg_negative_expiry Demo.alice (init Demo.claimed))
    = init Demo.claimed.
Proof.
  assert (H : expiry Scenario.cfg_negative_expiry < 0) by (vm_compute; reflexivity).
  destruct (unencodable_never_signed Demo.R Scenario.cfg_negative_expiry Demo.alice
              (init Demo.claimed) (or_intror (or_introl H))) as [_ Hw].
  split; [exact H|]. split; [vm_compute; reflexivity|exact Hw].
Defined.

(** X17. An address that passed the guard of the route can always be
    packed: with a configured signer that is an address and an expiry within
    [uint256], the message for it exists, is 74 bytes long, and its hash is
    what [msgHash] returns. *)
Theorem validated_claimer_encodes R cfg q a :
  validAddress R q = Some a ->
  isAddress R (trustedSignerAddress cfg) = true ->
  0 <= expiry cfg <= maxUint256 ->
  exists m,
    encodePacked R (trustedSignerAddress cfg) a (expiry cfg) = Ok m /\
    length m = 74%nat /\
    msgHash R cfg a = Ok (keccak256 R m).
Proof.
  intros Ha Hs Hx. apply validAddress_Some in Ha as [_ Ha].
  destruct (packAddress_valid R _ Hs) as [sb Hsb].
  destruct (packAddress_valid R _ Ha) as [cb Hcb].
  assert (Hm : encodePacked R (trustedSignerAddress cfg) a (expiry cfg) =
               Ok (domainPrefix ++ sb ++ cb ++ Hex.be_bytes 32 (Z.to_N (expiry cfg)))%list).
  { unfold encodePacked, packUint256. rewrite Hsb, Hcb.
    assert ((expiry cfg <? 0) || (maxUint256 <? expiry cfg) = false) as ->.
    { apply orb_false_iff. split; lia. }
    reflexivity. }
  eexists. split; [exact Hm|]. split.
  - apply packAddress_Ok in Hsb as [_ Hls], Hcb as [_ Hlc].
    rewrite !length_app, HexFacts.length_be_bytes, Hls, Hlc. reflexivity.
  - unfold msgHash. rewrite Hm. reflexivity.
Qed.

Lemma validated_claimer_encodes_witness :
  exists m,
    encodePacked Demo.R (trustedSignerAddress Demo.cfg) Demo.alice_checksummed
      (expiry Demo.cfg) = Ok m /\
    length m = 74%nat.
Proof.
  destruct (validated_claimer_encodes Demo.R Demo.cfg
              (QString Demo.alice_checksummed) Demo.alice_checksummed)
    as (m & Hm & Hlen & _).
  - vm_compute. reflexivity.
  - vm_compute. reflexivity.
  - vm_compute. split; discriminate.
  - exists m. split; assumption.
Defined.

(** X18. The route signs only after a read of the store that found
    nothing, and what it asks the account to sign is the hash of the message
    for the requesting address. *)
Theorem signs_hash_after_miss R S cfg req store h r :
  In (EvSignMessage h r) (trace (snd (run R S cfg req store))) ->
  exists a key,
    validAddress R (query_address req) = Some a /\
    msgHash R cfg a = Ok h /\
    In (EvKvGet key (Ok None)) (trace (snd (run R S cfg req store))) /\
    store !! key = None.
Proof.
  intros Hin.
  by_paths R S cfg req store Hrun;
    try (destruct (sign_events_cases R cfg a) as [[Hev _]|(h0 & r0 & Hev & Hh)];
         rewrite Hev in *; simpl in Hin);
    trace_cases; simplify_eq; path_facts;
    (do 2 eexists; split; [eassumption|]; split; [eassumption|];
     split; [do 2 right; left; reflexivity|assumption]).
Qed.

Lemma signs_hash_after_miss_witness :
  exists h r a key,
    In (EvSignMessage h r)
       (trace (snd (run Demo.R Demo.S Demo.cfg (Demo.get Demo.alice) Scenario.other_group))) /\
    validAddress Demo.R (query_address (Demo.get Demo.alice)) = Some a /\
    msgHash Demo.R Demo.cfg a = Ok h /\
    Scenario.other_group !! key = None.
Proof.
  assert (Hin : In (EvSignMessage
                      (keccak256 Demo.R
                         ([x19; x00]
                            ++ Hex.be_bytes 20 0xdbf03b407c01e7cd3cbea99509d93f8dddc8c6fb
                            ++ Hex.be_bytes 20 0x5aaeb6053f3e94c9b9a09f33669435e7ef1beaed
                            ++ Hex.be_bytes 32 300)%list)
                      (Ok (keccak256 Demo.R
                             ([x19; x00]
                                ++ Hex.be_bytes 20 0xdbf03b407c01e7cd3cbea99509d93f8dddc8c6fb
                                ++ Hex.be_bytes 20 0x5aaeb6053f3e94c9b9a09f33669435e7ef1beaed
                                ++ Hex.be_bytes 32 300)%list ++ "1b")))
                  (trace (snd (run Demo.R Demo.S Demo.cfg (Demo.get Demo.alice)
                                 Scenario.other_group))))
    by (vm_compute; do 3 right; left; reflexivity).
  destruct (signs_hash_after_miss _ _ _ _ _ _ _ Hin) as (a & key & Ha & Hh & _ & Hnone).
  do 4 eexists. split; [exact Hin|]. split; [exact Ha|]. split; [exact Hh|exact Hnone].
Defined.

(** ** A record and its time to live *)


(** What the first run of an issue establishes. *)
Lemma issue_conditions R S cfg req store key value ex :
  In (EvKvSet key value ex (Ok tt)) (trace (snd (run R S cfg req store))) ->
  exists a atts facts linked idemKey,
    eligible R S cfg req a atts facts /\
    getLinkedAddresses S a = Ok (linked, idemKey) /\
    kv_get_fault S key = None /\
    signing R cfg a = Ok (claim_signedMessage value) /\
    kv_set_fault S key value ex = None /\
    key = previousClaimsKVPrefix ++ idemKey /\
    value = {| claim_address := a; claim_signedMessage := claim_signedMessage value |} /\
    ex = expiry cfg /\
    kv_store (snd (run R S cfg req store)) = <[key := (value, ex)]> store /\
    sent (snd (run R S cfg req store)) =
      [reply 200 (ProofBody {| signedMessage := Some (claim_signedMessage value);
                               attestations := facts;
                               linkedAddresses := Some linked |})].
Proof.
  intros Hin. by_paths R S cfg req store Hrun; trace_cases; simplify_eq.
  exists a, atts, facts, linked, idemKey. simpl. auto 12.
Qed.

(** X19. Within the life of the record the request is replayed: when a run
    has written its record for [ex] seconds and fewer than [ex] seconds have
    passed, the same request gets the same body, nothing is signed, and the
    record keeps the seconds it has left: a replay does not renew it. *)
Theorem replay_within_expiry R S cfg req store key value ex dt :
  In (EvKvSet key value ex (Ok tt)) (trace (snd (run R S cfg req store))) ->
  0 <= dt < ex ->
  sent (snd (run R S cfg req (elapse dt (kv_store (snd (run R S cfg req store)))))) =
    sent (snd (run R S cfg req store)) /\
  existsb is_sign
    (trace (snd (run R S cfg req (elapse dt (kv_store (snd (run R S cfg req store)))))))
    = false /\
  kv_store (snd (run R S cfg req (elapse dt (kv_store (snd (run R S cfg req store))))))
    !! key = Some (value, ex - dt).
Proof.
  intros Hin Hdt.
  destruct (issue_conditions _ _ _ _ _ _ _ _ Hin)
    as (a & atts & facts & linked & idemKey & Hel & Hlink & Hgf & Hsign & Hsf
        & Hkey & Hval & Hex & Hstore & Hsent).
  rewrite Hstore, Hsent.
  assert (Hlook : elapse dt (<[key := (value, ex)]> store) !! key = Some (value, ex - dt)).
  { rewrite lookup_elapse, lookup_insert_eq.
    destruct (dt <? ex) eqn:E; [reflexivity|lia]. }
  subst key.
  rewrite (replay_path R S cfg req _ a atts facts linked idemKey value (ex - dt));
    try assumption.
  - simpl. auto.
  - rewrite Hval. reflexivity.
Qed.

Lemma replay_within_expiry_witness :
  exists value,
    In (EvKvSet Demo.key value 300 (Ok tt))
       (trace (snd (run Demo.R Demo.S Demo.cfg (Demo.get Demo.alice) ∅))) /\
    sent (snd (run Demo.R Demo.S Demo.cfg (Demo.get Demo.alice)
                 (elapse 299 (kv_store (snd (run Demo.R Demo.S Demo.cfg
                                               (Demo.get Demo.alice) ∅)))))) =
      sent (snd (run Demo.R Demo.S Demo.cfg (Demo.get Demo.alice) ∅)) /\
    kv_store (snd (run Demo.R Demo.S Demo.cfg (Demo.get Demo.alice)
                     (elapse 299 (kv_store (snd (run Demo.R Demo.S Demo.cfg
                                                   (Demo.get Demo.alice) ∅))))))
      !! Demo.key = Some (value, 1).
Proof.
  eexists.
  assert (Hin : In (EvKvSet Demo.key
                      {| claim_address := Demo.alice;
                         claim_signedMessage :=
                           Demo.alice ++ keccak256 Demo.R
                             ([x19; x00]
                                ++ Hex.be_bytes 20 0xdbf03b407c01e7cd3cbea99509d93f8dddc8c6fb
                                ++ Hex.be_bytes 20 0x5aaeb6053f3e94c9b9a09f33669435e7ef1beaed
                                ++ Hex.be_bytes 32 300)%list ++ "1b" |}
                      300 (Ok tt))
                  (trace (snd (run Demo.R Demo.S Demo.cfg (Demo.get Demo.alice) ∅))))
    by (vm_compute; do 4 right; left; reflexivity).
  destruct (replay_within_expiry Demo.R Demo.S Demo.cfg (Demo.get Demo.alice) ∅
              _ _ _ 299 Hin ltac:(lia)) as (Hsent & _ & Hleft).
  split; [exact Hin|]. split; [exact Hsent|exact Hleft].
Defined.


